(** * The company-list upload page: ingestion, dispatch and presentation

    A shallow embedding of [handleUpload] as written in
    [src/app/page.tsx] (the grouped page) and in its flat sibling page,
    together with the pieces of the JavaScript runtime the handler relies
    on: strings as sequences of UTF-16 code units, [String.prototype.trim],
    [parseInt], truthiness, ordinary objects used as maps, and
    [try]/[catch]/[finally] around awaited calls. *)

From Stdlib Require Import ZArith NArith List String Ascii Bool Lia.
From Stdlib Require Import DecimalString DecimalPos Permutation.
Import ListNotations.

(* ================================================================== *)
(** ** JavaScript strings *)
(* ================================================================== *)

Module Js.

(** A JavaScript string is a finite sequence of 16-bit code units. *)
Definition jsstring := list N.

(** String literals of the source, written in ASCII. *)
Definition lit (s : string) : jsstring :=
  map N_of_ascii (list_ascii_of_string s).

Fixpoint eqb (a b : jsstring) : bool :=
  match a, b with
  | [], [] => true
  | x :: a', y :: b' => N.eqb x y && eqb a' b'
  | _, _ => false
  end.

(** [s.includes(t)], as a proposition. *)
Definition includes (needle hay : jsstring) : Prop :=
  exists pre suf, hay = pre ++ needle ++ suf.

(** ToBoolean on a string: only the empty string is falsy. *)
Definition truthy_string (s : jsstring) : bool :=
  match s with [] => false | _ :: _ => true end.

(** ToBoolean on a possibly [undefined] string. *)
Definition truthy (v : option jsstring) : bool :=
  match v with None => false | Some s => truthy_string s end.

(** [v || d] on a possibly [undefined] string. *)
Definition or_string (v : option jsstring) (d : jsstring) : jsstring :=
  match v with
  | Some (c :: s) => c :: s
  | _ => d
  end.

(** WhiteSpace and LineTerminator code points of ECMAScript: the set that
    [trim] strips and that [parseInt] skips. *)
Definition is_white_space (c : N) : bool :=
  ((9 <=? c) && (c <=? 13) || (c =? 32) || (c =? 160) || (c =? 5760)
   || (8192 <=? c) && (c <=? 8202) || (c =? 8232) || (c =? 8233)
   || (c =? 8239) || (c =? 8287) || (c =? 12288) || (c =? 65279))%N.

Fixpoint trimStart (s : jsstring) : jsstring :=
  match s with
  | c :: s' => if is_white_space c then trimStart s' else s
  | [] => []
  end.

Definition trimEnd (s : jsstring) : jsstring := rev (trimStart (rev s)).

Definition trim (s : jsstring) : jsstring := trimEnd (trimStart s).

(** [s.endsWith(suffix)]: the last code units of [s] are those of
    [suffix]; false when [s] is the shorter one. *)
Definition endsWith (s suffix : jsstring) : bool :=
  (List.length suffix <=? List.length s)%nat
  && eqb (skipn (List.length s - List.length suffix) s) suffix.

(** [s.split(sep)[0]] for a separator of one code unit: the code units
    before its first occurrence, or all of [s] when there is none. *)
Fixpoint split_head (sep : N) (s : jsstring) : jsstring :=
  match s with
  | c :: s' => if (c =? sep)%N then [] else c :: split_head sep s'
  | [] => []
  end.

(* ------------------------------------------------------------------ *)
(** *** Numbers *)

(** The Number values the handler meets: NaN, the infinities and
    integer-valued doubles (the two zeros are one value here; both are
    falsy). *)
Inductive number :=
| NaN
| Inf (negative : bool)
| Fin (z : Z).

Definition truthy_number (n : number) : bool :=
  match n with
  | NaN => false
  | Inf _ => true
  | Fin z => negb (z =? 0)%Z
  end.

(** [n || d] on numbers. *)
Definition or_number (n d : number) : number :=
  if truthy_number n then n else d.

(** [v || d] on a possibly [undefined] number. *)
Definition or_number_opt (v : option number) (d : number) : number :=
  match v with
  | Some n => or_number n d
  | None => d
  end.

(** The Number value for a mathematical integer: round to 53 significant
    bits, ties to even, overflowing to an infinity. *)
Definition round_to_double (z : Z) : number :=
  let a := Z.abs z in
  if (a <? 2 ^ 53)%Z then Fin z
  else
    let e := (Z.log2 a - 52)%Z in
    let q := Z.shiftr a e in
    let r := (a - Z.shiftl q e)%Z in
    let half := Z.shiftl 1 (e - 1) in
    let q' := if (half <? r)%Z || ((r =? half)%Z && Z.odd q)
              then (q + 1)%Z else q in
    let v := Z.shiftl q' e in
    if (2 ^ 1024 <=? v)%Z then Inf (z <? 0)%Z
    else Fin (Z.sgn z * v).

(** The value of a code unit as a digit in the given radix, if it is one. *)
Definition digit_value (radix : Z) (c : N) : option Z :=
  let c := Z.of_N c in
  let v := if (48 <=? c)%Z && (c <=? 57)%Z then Some (c - 48)%Z
           else if (97 <=? c)%Z && (c <=? 122)%Z then Some (c - 87)%Z
           else if (65 <=? c)%Z && (c <=? 90)%Z then Some (c - 55)%Z
           else None in
  match v with
  | Some d => if (d <? radix)%Z then Some d else None
  | None => None
  end.

(** The longest prefix of radix digits, accumulated most significant
    first; [seen] records whether any digit was read. *)
Fixpoint parse_digits (radix : Z) (s : jsstring) (seen : bool) (acc : Z)
  : option Z :=
  match s with
  | c :: s' =>
      match digit_value radix c with
      | Some d => parse_digits radix s' true (acc * radix + d)
      | None => if seen then Some acc else None
      end
  | [] => if seen then Some acc else None
  end.

(** [parseInt(string)] with no radix argument. *)
Definition parseInt_string (input : jsstring) : number :=
  let s := trimStart input in
  let '(sign, s) :=
    match s with
    | 45%N :: s' => ((-1)%Z, s')
    | 43%N :: s' => (1%Z, s')
    | _ => (1%Z, s)
    end in
  let '(radix, s) :=
    match s with
    | 48%N :: 120%N :: s' => (16%Z, s')
    | 48%N :: 88%N :: s' => (16%Z, s')
    | _ => (10%Z, s)
    end in
  match parse_digits radix s false 0 with
  | None => NaN
  | Some mathInt => round_to_double (sign * mathInt)
  end.

(** [parseInt(v)] where [v] is a string or [undefined]; the argument is
    first converted with ToString. *)
Definition parseInt (v : option jsstring) : number :=
  parseInt_string
    (match v with Some s => s | None => lit "undefined" end).

(** Decimal digits of an integer. *)
Definition decimal (z : Z) : jsstring :=
  lit (NilZero.string_of_int (Z.to_int z)).

(* ------------------------------------------------------------------ *)
(** *** Errors and awaited values *)

(** A thrown [Error] object; the handler only reads its message. *)
Record JsError := mkError { err_message : jsstring }.

(** The outcome of an awaited promise. *)
Inductive Await (A : Type) :=
| Resolved (a : A)
| Rejected (e : JsError).

Arguments Resolved {A} a.
Arguments Rejected {A} e.

End Js.

Import Js.

(* ================================================================== *)
(** ** Ordinary objects used as maps *)
(* ================================================================== *)

Module Obj.

(** The own string-keyed properties of an object created by [{}], in
    creation order. *)
Definition t (A : Type) := list (jsstring * A).

Definition empty {A : Type} : t A := [].

Fixpoint own_get {A : Type} (o : t A) (k : jsstring) : option A :=
  match o with
  | (k', v) :: o' => if Js.eqb k' k then Some v else own_get o' k
  | [] => None
  end.

(** The property names every object inherits from [Object.prototype]. *)
Definition prototype_names : list jsstring :=
  map lit
    ["constructor"; "__defineGetter__"; "__defineSetter__";
     "hasOwnProperty"; "__lookupGetter__"; "__lookupSetter__";
     "isPrototypeOf"; "propertyIsEnumerable"; "toString"; "valueOf";
     "__proto__"; "toLocaleString"]%string.

Definition inherited (k : jsstring) : bool :=
  existsb (Js.eqb k) prototype_names.

(** What [o[k]] evaluates to: an own value, a value found on
    [Object.prototype] (a function, or the prototype itself for
    [__proto__]: truthy, and without a [push] method), or [undefined]. *)
Inductive lookup (A : Type) :=
| Own (a : A)
| Inherited
| Undefined.

Arguments Own {A} a.
Arguments Inherited {A}.
Arguments Undefined {A}.

Definition get {A : Type} (o : t A) (k : jsstring) : lookup A :=
  match own_get o k with
  | Some a => Own a
  | None => if inherited k then Inherited else Undefined
  end.

(** [o[k] = v] for a key that is not inherited: overwrite the own
    property in place, or create it after the existing ones. *)
Fixpoint set {A : Type} (o : t A) (k : jsstring) (v : A) : t A :=
  match o with
  | (k', v') :: o' =>
      if Js.eqb k' k then (k', v) :: o' else (k', v') :: set o' k v
  | [] => [(k, v)]
  end.

(** The numeric value of a key that is an array index: a canonical
    decimal numeral below 2^32 - 1. *)
Definition array_index (k : jsstring) : option Z :=
  match k with
  | [] => None
  | [48%N] => Some 0%Z
  | 48%N :: _ => None
  | _ =>
      if forallb (fun c => (48 <=? c)%N && (c <=? 57)%N) k then
        match parse_digits 10 k false 0 with
        | Some n => if (n <? 2 ^ 32 - 1)%Z then Some n else None
        | None => None
        end
      else None
  end.

Fixpoint insert_by_index {A : Type} (e : Z * (jsstring * A))
  (l : list (Z * (jsstring * A))) : list (Z * (jsstring * A)) :=
  match l with
  | x :: l' => if (fst e <? fst x)%Z then e :: x :: l'
               else x :: insert_by_index e l'
  | [] => [e]
  end.

(** The own properties split into the array-index keys, sorted by
    numeric value, and the other keys, in creation order. *)
Fixpoint split_keys {A : Type} (o : t A)
  : list (Z * (jsstring * A)) * list (jsstring * A) :=
  match o with
  | (k, v) :: o' =>
      let '(ix, rest) := split_keys o' in
      match array_index k with
      | Some n => (insert_by_index (n, (k, v)) ix, rest)
      | None => (ix, (k, v) :: rest)
      end
  | [] => ([], [])
  end.

(** [Object.entries(o)]: array-index keys first, ascending, then the
    remaining keys in creation order. *)
Definition entries {A : Type} (o : t A) : list (jsstring * A) :=
  let '(ix, rest) := split_keys o in map snd ix ++ rest.

Definition keys {A : Type} (o : t A) : list jsstring :=
  map fst (entries o).

End Obj.

(* ================================================================== *)
(** ** Data model *)
(* ================================================================== *)

(** One element of [parsed.data]: the object Papa Parse builds for a data
    line under [header: true], a map from header names to the line's
    fields, all of them strings; a header with no field on the line is
    [undefined]. *)
Definition Row := Obj.t jsstring.

(** [company['...']] for the three column names the handler reads; none
    of them is a name inherited from [Object.prototype]. *)
Definition field (company : Row) (column : string) : option jsstring :=
  Obj.own_get company (lit column).

(** An element of [cleanedCompanies]. *)
Record UploadRecord := {
  Company_Name : jsstring;
  Region : jsstring;
  Max_Results : number
}.

(** [interface ProfileResult]; a field the response leaves out is
    [undefined]. *)
Record ProfileResult := {
  name : option jsstring;
  title : option jsstring;
  snippet : option jsstring;
  url : option jsstring;
  email : option jsstring;
  startDate : option jsstring;
  duration : option jsstring;
  search_company : option jsstring;
  search_region : option jsstring
}.

(** [interface ProcessingResponse], as decoded from the response body; a
    field the body leaves out is [undefined]. *)
Module Resp.
Record ProcessingResponse := {
  status : option jsstring;
  message : option jsstring;
  totalCompanies : option number;
  totalProfiles : option number;
  processedCompanies : option (list jsstring);
  profiles : option (list ProfileResult);
  timestamp : option jsstring
}.
End Resp.

Definition ProcessingResponse : Type := Resp.ProcessingResponse.

Inductive MessageType := success | error | info.

Record Message := { text : jsstring; type : MessageType }.

Record File := { file_name : jsstring }.

(* ================================================================== *)
(** ** CSV ingestion *)
(* ================================================================== *)

(** The predicate of [.filter(...)]:
    [company['Company Name'] && company['Region']]. *)
Definition valid_row (company : Row) : bool :=
  truthy (field company "Company Name") && truthy (field company "Region").

(** [s.trim()] on a value the filter has let through. *)
Definition trim_field (v : option jsstring) : jsstring :=
  match v with Some s => trim s | None => [] end.

(** The function of [.map(...)]. *)
Definition clean_row (company : Row) : UploadRecord :=
  {| Company_Name := trim_field (field company "Company Name");
     Region := trim_field (field company "Region");
     Max_Results :=
       or_number (parseInt (field company "Max Results")) (Fin 20) |}.

(** [parsed.data.filter(...).map(...)]. *)
Definition cleanedCompanies (data : list Row) : list UploadRecord :=
  map clean_row (filter valid_row data).

Definition row (company region : string) : Row :=
  [(lit "Company Name", lit company); (lit "Region", lit region)].

Definition row3 (company region max : string) : Row :=
  row company region ++ [(lit "Max Results", lit max)].

(* ================================================================== *)
(** ** Effects: component state, exceptions, awaited calls *)
(* ================================================================== *)

Module Eff.

Section Monad.
Variable S : Type.

(** A computation over the component's state that returns or throws. *)
Definition M (A : Type) : Type := S -> (JsError + A) * S.

Definition ret {A : Type} (a : A) : M A := fun s => (inr a, s).

Definition bind {A B : Type} (m : M A) (k : A -> M B) : M B :=
  fun s =>
    match m s with
    | (inr a, s') => k a s'
    | (inl e, s') => (inl e, s')
    end.

Definition throw {A : Type} (e : JsError) : M A := fun s => (inl e, s).

Definition modify (f : S -> S) : M unit := fun s => (inr tt, f s).

(** [await p]: resume with the value, or throw the rejection. *)
Definition await {A : Type} (p : Await A) : M A :=
  match p with
  | Resolved a => ret a
  | Rejected e => throw e
  end.

(** [if (c) throw e;] *)
Definition throw_if (c : bool) (e : JsError) : M unit :=
  if c then throw e else ret tt.

(** [try { body } catch (err) { handler } finally { fin }]. *)
Definition try_catch_finally (body : M unit) (handler : JsError -> M unit)
  (fin : M unit) : M unit :=
  fun s =>
    match body s with
    | (inr _, s1) => fin s1
    | (inl err, s1) =>
        match handler err s1 with
        | (inr _, s2) => fin s2
        | (inl err', s2) =>
            match fin s2 with
            | (inr _, s3) => (inl err', s3)
            | (inl err'', s3) => (inl err'', s3)
            end
        end
    end.
End Monad.

Arguments ret {S A} a.
Arguments bind {S A B} m k.
Arguments modify {S} f.
Arguments try_catch_finally {S} body handler fin.
Arguments throw {S A} e.
Arguments await {S A} p.
Arguments throw_if {S} c e.

End Eff.

Import Eff.

Declare Scope eff_scope.
Delimit Scope eff_scope with eff.
Notation "x <- m ;; k" := (bind m (fun x => k))
  (at level 61, m at next level, right associativity) : eff_scope.
Notation "m ;; k" := (bind m (fun _ => k))
  (at level 61, right associativity) : eff_scope.

(* ------------------------------------------------------------------ *)
(** *** The network and the runtime *)

Module Http.

(** The argument of [fetch]: the URL and the request init; the body is
    kept as the value handed to [JSON.stringify]. *)
Record Request := {
  url : jsstring;
  method : jsstring;
  content_type : jsstring;
  body : list UploadRecord
}.

(** What [response.json()] resolves to: the JSON value [null], or any
    other JSON value, read through the fields of [ProcessingResponse] (a
    field that is missing, as every field of a number, a string, a boolean
    or an array is, reads as [undefined]). The type annotation of the
    handler is erased at run time, so [null] reaches the handler too. *)
Inductive Body :=
| BodyNull
| BodyObject (fields : ProcessingResponse).

(** What the handler reads of a [Response]: the status code and the
    outcome of [response.json()]. *)
Record Response := {
  status : N;
  json : Await Body
}.

(** [response.ok]: the status is in the range 200-299. *)
Definition ok (r : Response) : bool :=
  ((200 <=? status r) && (status r <=? 299))%N.

End Http.

(** The answers of the environment to the calls the handler awaits or
    delegates: the selected file's text, Papa Parse's [data] for a text
    (with [header: true, skipEmptyLines: true]), the webhook's answer to a
    request, the elapsed seconds as rendered by [toFixed(1)], and the
    engine's rendering of an integer of magnitude 2^53 and more (the
    shortest digits that read back as the same double, in exponent
    notation from 10^21 on). *)
Record World := {
  file_text : File -> Await jsstring;
  Papa_parse_data : jsstring -> list Row;
  fetch_answer : Http.Request -> Await Http.Response;
  elapsed_seconds : jsstring;
  big_number_to_string : Z -> jsstring
}.

(** ToString on a number, as a template literal applies it: an integer
    of magnitude below 2^53 is printed digit for digit; beyond that the
    engine prints the shortest digits of the double. *)
Definition number_to_string (w : World) (n : number) : jsstring :=
  match n with
  | NaN => lit "NaN"
  | Inf false => lit "Infinity"
  | Inf true => lit "-Infinity"
  | Fin z =>
      if (Z.abs z <? 2 ^ 53)%Z then decimal z else big_number_to_string w z
  end.

Definition opt_number_to_string (w : World) (v : option number) : jsstring :=
  match v with
  | Some n => number_to_string w n
  | None => lit "undefined"
  end.

Definition quoted (s : string) : jsstring := 34%N :: lit s ++ [34%N].

Definition webhook_url : jsstring :=
  lit "https://noureyeotech.app.n8n.cloud/webhook-test/205690e7-c532-45e4-92c8-c3bd21b44c58".

Definition no_valid_rows : jsstring :=
  lit "No valid rows found in the CSV. Make sure each row includes "
  ++ quoted "Company Name" ++ lit " and " ++ quoted "Region" ++ lit ".".

(** [`HTTP error! status: ${response.status}`]; a status is an unsigned
    16-bit number, which ToString renders in plain decimal. *)
Definition http_error (status : N) : jsstring :=
  lit "HTTP error! status: " ++ decimal (Z.of_N status).

(** The TypeError raised by [result.status] when [result] is [null]
    (V8's wording). *)
Definition reading_status_of_null : JsError :=
  mkError (lit "Cannot read properties of null (reading 'status')").

(** [result.status === 'success'] *)
Definition is_success (result : ProcessingResponse) : bool :=
  match Resp.status result with
  | Some s => Js.eqb s (lit "success")
  | None => false
  end.

(** The file input's [value] after [value = ''], when the ref is
    attached. *)
Definition cleared (value : option jsstring) : option jsstring :=
  match value with
  | Some _ => Some []
  | None => None
  end.

(** The request of the [fetch] call. *)
Definition webhook_request (cleaned : list UploadRecord) : Http.Request :=
  {| Http.url := webhook_url;
     Http.method := lit "POST";
     Http.content_type := lit "application/json";
     Http.body := cleaned |}.

(** What [downloadResults] hands to the browser: the anchor's
    [download] name and the blob's type and text. *)
Record Download := {
  download_name : jsstring;
  blob_type : jsstring;
  blob_text : jsstring
}.

(** The environment of an export: Papa Parse's [unparse] and the
    [toISOString()] of the current date. *)
Record ExportEnv := {
  Papa_unparse : list ProfileResult -> jsstring;
  toISOString : jsstring
}.

(** [new Date().toISOString().split('T')[0]] *)
Definition iso_date (x : ExportEnv) : jsstring :=
  split_head 84 (toISOString x).

(* ================================================================== *)
(** ** The grouped page ([src/app/page.tsx]) *)
(* ================================================================== *)

Module Grouped.

Record Stats := {
  totalCompanies : number;
  totalProfiles : number;
  processedCompanies : list jsstring;
  processingTime : jsstring
}.

(** The component's [useState] cells. *)
Record UIState := {
  file : option File;
  message : option Message;
  isLoading : bool;
  results : list ProfileResult;
  processingStats : option Stats;
  groupedResults : Obj.t (list ProfileResult)
}.

(** The component's state, the [value] of the file input behind
    [fileInputRef] ([None] while the ref is not attached), and the
    requests issued so far. *)
Record Machine := {
  ui : UIState;
  fileInput : option jsstring;
  requests : list Http.Request
}.

Definition on_ui (f : UIState -> UIState) : M Machine unit :=
  modify (fun m => {| ui := f (ui m); fileInput := fileInput m;
                      requests := requests m |}).

Definition setFile (v : option File) : M Machine unit :=
  on_ui (fun s => {| file := v; message := message s;
    isLoading := isLoading s; results := results s;
    processingStats := processingStats s;
    groupedResults := groupedResults s |}).

Definition setMessage (v : Message) : M Machine unit :=
  on_ui (fun s => {| file := file s; message := Some v;
    isLoading := isLoading s; results := results s;
    processingStats := processingStats s;
    groupedResults := groupedResults s |}).

Definition setIsLoading (v : bool) : M Machine unit :=
  on_ui (fun s => {| file := file s; message := message s;
    isLoading := v; results := results s;
    processingStats := processingStats s;
    groupedResults := groupedResults s |}).

Definition setResults (v : list ProfileResult) : M Machine unit :=
  on_ui (fun s => {| file := file s; message := message s;
    isLoading := isLoading s; results := v;
    processingStats := processingStats s;
    groupedResults := groupedResults s |}).

Definition setProcessingStats (v : option Stats) : M Machine unit :=
  on_ui (fun s => {| file := file s; message := message s;
    isLoading := isLoading s; results := results s;
    processingStats := v;
    groupedResults := groupedResults s |}).

Definition setGroupedResults (v : Obj.t (list ProfileResult))
  : M Machine unit :=
  on_ui (fun s => {| file := file s; message := message s;
    isLoading := isLoading s; results := results s;
    processingStats := processingStats s;
    groupedResults := v |}).

(** [if (fileInputRef.current) fileInputRef.current.value = ''] *)
Definition resetFileInput : M Machine unit :=
  modify (fun m => {| ui := ui m; fileInput := cleared (fileInput m);
                      requests := requests m |}).

(** [await fetch(url, init)]: the request goes out, then the handler
    resumes with the response or the rejection. *)
Definition fetch (w : World) (req : Http.Request) : M Machine Http.Response :=
  (modify (fun m => {| ui := ui m; fileInput := fileInput m;
                       requests := requests m ++ [req] |}) ;;
   await (fetch_answer w req))%eff.

(** The TypeError raised by calling the missing [push] of a value found
    on [Object.prototype] (V8's wording). *)
Definition push_is_not_a_function : JsError :=
  mkError (lit "grouped[companyKey].push is not a function").

(** [profile.search_company || 'Unknown Company'] *)
Definition companyKey (profile : ProfileResult) : jsstring :=
  or_string (search_company profile) (lit "Unknown Company").

(** The body of [result.profiles.forEach(profile => ...)]. *)
Definition group_profile (grouped : Obj.t (list ProfileResult))
  (profile : ProfileResult) : JsError + Obj.t (list ProfileResult) :=
  let companyKey := companyKey profile in
  let grouped :=
    match Obj.get grouped companyKey with
    | Obj.Undefined => Obj.set grouped companyKey []
    | _ => grouped
    end in
  match Obj.get grouped companyKey with
  | Obj.Own members => inr (Obj.set grouped companyKey (members ++ [profile]))
  | _ => inl push_is_not_a_function
  end.

Fixpoint forEach_group (grouped : Obj.t (list ProfileResult))
  (profiles : list ProfileResult) : JsError + Obj.t (list ProfileResult) :=
  match profiles with
  | profile :: rest =>
      match group_profile grouped profile with
      | inr grouped' => forEach_group grouped' rest
      | inl e => inl e
      end
  | [] => inr grouped
  end.

(** [const grouped = {}; result.profiles.forEach(...)] *)
Definition group_by_company (profiles : list ProfileResult)
  : JsError + Obj.t (list ProfileResult) :=
  forEach_group Obj.empty profiles.

Definition processing_message (n : nat) : jsstring :=
  lit "Processing " ++ decimal (Z.of_nat n)
  ++ lit " companies. This may take several minutes...".

(** The success text; its first four code units are the ones the
    source file holds before the word Success. *)
Definition success_message (w : World) (result : ProcessingResponse)
  : jsstring :=
  [240; 376; 381; 8240]%N ++ lit " Success! Found "
  ++ opt_number_to_string w (Resp.totalProfiles result)
  ++ lit " profiles across "
  ++ decimal (Z.of_nat
       (match Resp.processedCompanies result with
        | Some l => List.length l
        | None => 0
        end))
  ++ lit " companies".

(** The [try] block. *)
Definition upload_body (w : World) (f : File) : M Machine unit :=
  (text <- await (file_text w f) ;;
   let cleaned := cleanedCompanies (Papa_parse_data w text) in
   throw_if (List.length cleaned =? 0) (mkError no_valid_rows) ;;
   setMessage {| text := processing_message (List.length cleaned); type := info |} ;;
   response <- fetch w (webhook_request cleaned) ;;
   throw_if (negb (Http.ok response))
     (mkError (http_error (Http.status response))) ;;
   body <- await (Http.json response) ;;
   match body with
   | Http.BodyNull => throw reading_status_of_null
   | Http.BodyObject result =>
   match is_success result, Resp.profiles result with
   | true, Some profs =>
       match group_by_company profs with
       | inl e => throw e
       | inr grouped =>
           setResults profs ;;
           setGroupedResults grouped ;;
           setProcessingStats (Some
             {| totalCompanies :=
                  or_number_opt (Resp.totalCompanies result) (Fin 0);
                totalProfiles :=
                  or_number_opt (Resp.totalProfiles result) (Fin 0);
                processedCompanies :=
                  match Resp.processedCompanies result with
                  | Some l => l
                  | None => []
                  end;
                processingTime := elapsed_seconds w ++ lit "s" |}) ;;
           setMessage {| text := success_message w result; type := success |}
       end
   | _, _ =>
       throw (mkError (or_string (Resp.message result)
                         (lit "Processing failed")))
   end
   end)%eff.

(** The [catch] block. *)
Definition upload_catch (err : JsError) : M Machine unit :=
  setMessage {| text := or_string (Some (err_message err))
                          (lit "Failed to process file");
                type := error |}.

(** The [finally] block. *)
Definition upload_finally : M Machine unit :=
  (setIsLoading false ;; resetFileInput ;; setFile None)%eff.

Definition handleUpload (w : World) : M Machine unit :=
  fun m =>
    match file (ui m) with
    | None => (inr tt, m)
    | Some f =>
        (setIsLoading true ;;
         setResults [] ;;
         setProcessingStats None ;;
         setGroupedResults Obj.empty ;;
         try_catch_finally (upload_body w f) upload_catch upload_finally)%eff m
    end.

(** [disabled={isLoading || !file}] on the submit button. *)
Definition submit_disabled (s : UIState) : bool :=
  isLoading s || match file s with Some _ => false | None => true end.

(** The change handler of the file input; [selected] is
    [e.target.files?.[0]]. *)
Definition handleFileChange (selected : option File) : M Machine unit :=
  match selected with
  | None => ret tt
  | Some selectedFile =>
      if negb (endsWith (file_name selectedFile) (lit ".csv")) then
        setMessage {| text := lit "Please upload a CSV file"; type := error |}
      else
        (setFile (Some selectedFile) ;;
         setMessage {| text := lit "Ready to upload: "
                               ++ file_name selectedFile;
                       type := info |} ;;
         setResults [] ;;
         setProcessingStats None ;;
         setGroupedResults Obj.empty)%eff
  end.

(** [downloadResults]: nothing when there is no result, else one file
    handed to the browser; the component's state is not touched. *)
Definition downloadResults (x : ExportEnv) (s : UIState) : option Download :=
  match results s with
  | [] => None
  | _ :: _ =>
      Some {| download_name :=
                lit "linkedin_profiles_all_companies_" ++ iso_date x
                ++ lit ".csv";
              blob_type := lit "text/csv";
              blob_text := Papa_unparse x (results s) |}
  end.

(** [Object.keys(groupedResults).length > 0]: the guard of the results
    block, which holds the download button (line 305). *)
Definition results_block_guard (s : UIState) : bool :=
  negb (List.length (Obj.keys (groupedResults s)) =? 0).

(** Whether the JSX builds an [<FiBuilding>] element: once in the
    statistics block, rendered when [processingStats] is not null (line
    269), and once in the heading of every group of the results block
    (line 325). *)
Definition builds_FiBuilding (s : UIState) : bool :=
  match processingStats s with Some _ => true | None => false end
  || results_block_guard s.

(** [Object.entries(groupedResults)]: the list the results block maps
    over (line 321), one entry per group; what the render then puts on
    the screen is not part of this model. *)
Definition group_entries (s : UIState) : list (jsstring * list ProfileResult) :=
  Obj.entries (groupedResults s).

End Grouped.

(* ================================================================== *)
(** ** The flat page (the sibling variant without grouping) *)
(* ================================================================== *)

Module Flat.

Record Stats := {
  totalCompanies : number;
  totalProfiles : number;
  processingTime : jsstring
}.

Record UIState := {
  file : option File;
  message : option Message;
  isLoading : bool;
  results : list ProfileResult;
  processingStats : option Stats
}.

Record Machine := {
  ui : UIState;
  fileInput : option jsstring;
  requests : list Http.Request
}.

Definition on_ui (f : UIState -> UIState) : M Machine unit :=
  modify (fun m => {| ui := f (ui m); fileInput := fileInput m;
                      requests := requests m |}).

Definition setFile (v : option File) : M Machine unit :=
  on_ui (fun s => {| file := v; message := message s;
    isLoading := isLoading s; results := results s;
    processingStats := processingStats s |}).

Definition setMessage (v : Message) : M Machine unit :=
  on_ui (fun s => {| file := file s; message := Some v;
    isLoading := isLoading s; results := results s;
    processingStats := processingStats s |}).

Definition setIsLoading (v : bool) : M Machine unit :=
  on_ui (fun s => {| file := file s; message := message s;
    isLoading := v; results := results s;
    processingStats := processingStats s |}).

Definition setResults (v : list ProfileResult) : M Machine unit :=
  on_ui (fun s => {| file := file s; message := message s;
    isLoading := isLoading s; results := v;
    processingStats := processingStats s |}).

Definition setProcessingStats (v : option Stats) : M Machine unit :=
  on_ui (fun s => {| file := file s; message := message s;
    isLoading := isLoading s; results := results s;
    processingStats := v |}).

Definition resetFileInput : M Machine unit :=
  modify (fun m => {| ui := ui m; fileInput := cleared (fileInput m);
                      requests := requests m |}).

Definition fetch (w : World) (req : Http.Request) : M Machine Http.Response :=
  (modify (fun m => {| ui := ui m; fileInput := fileInput m;
                       requests := requests m ++ [req] |}) ;;
   await (fetch_answer w req))%eff.

Definition processing_message (n : nat) : jsstring :=
  lit "Processing " ++ decimal (Z.of_nat n)
  ++ lit " companies. This may take a few minutes...".

Definition success_message (w : World) (result : ProcessingResponse)
  : jsstring :=
  lit "Success! Found "
  ++ opt_number_to_string w (Resp.totalProfiles result)
  ++ lit " profiles across "
  ++ opt_number_to_string w (Resp.totalCompanies result)
  ++ lit " companies".

(** The [try] block; the [console.log] of the payload leaves the
    component untouched. *)
Definition upload_body (w : World) (f : File) : M Machine unit :=
  (text <- await (file_text w f) ;;
   let cleaned := cleanedCompanies (Papa_parse_data w text) in
   throw_if (List.length cleaned =? 0) (mkError no_valid_rows) ;;
   setMessage {| text := processing_message (List.length cleaned);
                 type := info |} ;;
   response <- fetch w (webhook_request cleaned) ;;
   throw_if (negb (Http.ok response))
     (mkError (http_error (Http.status response))) ;;
   body <- await (Http.json response) ;;
   match body with
   | Http.BodyNull => throw reading_status_of_null
   | Http.BodyObject result =>
   match is_success result, Resp.profiles result with
   | true, Some profs =>
       setResults profs ;;
       setProcessingStats (Some
         {| totalCompanies :=
              or_number_opt (Resp.totalCompanies result) (Fin 0);
            totalProfiles :=
              or_number_opt (Resp.totalProfiles result) (Fin 0);
            processingTime := elapsed_seconds w ++ lit "s" |}) ;;
       setMessage {| text := success_message w result; type := success |}
   | _, _ =>
       throw (mkError (or_string (Resp.message result)
                         (lit "Processing failed")))
   end
   end)%eff.

Definition upload_catch (err : JsError) : M Machine unit :=
  setMessage {| text := or_string (Some (err_message err))
                          (lit "Failed to process file");
                type := error |}.

Definition upload_finally : M Machine unit :=
  (setIsLoading false ;; resetFileInput ;; setFile None)%eff.

Definition handleUpload (w : World) : M Machine unit :=
  fun m =>
    match file (ui m) with
    | None => (inr tt, m)
    | Some f =>
        (setIsLoading true ;;
         setResults [] ;;
         setProcessingStats None ;;
         try_catch_finally (upload_body w f) upload_catch upload_finally)%eff m
    end.

Definition submit_disabled (s : UIState) : bool :=
  isLoading s || match file s with Some _ => false | None => true end.

Definition handleFileChange (selected : option File) : M Machine unit :=
  match selected with
  | None => ret tt
  | Some selectedFile =>
      if negb (endsWith (file_name selectedFile) (lit ".csv")) then
        setMessage {| text := lit "Please upload a CSV file"; type := error |}
      else
        (setFile (Some selectedFile) ;;
         setMessage {| text := lit "Ready to upload: "
                               ++ file_name selectedFile;
                       type := info |} ;;
         setResults [] ;;
         setProcessingStats None)%eff
  end.

Definition downloadResults (x : ExportEnv) (s : UIState) : option Download :=
  match results s with
  | [] => None
  | _ :: _ =>
      Some {| download_name :=
                lit "linkedin_profiles_" ++ iso_date x ++ lit ".csv";
              blob_type := lit "text/csv";
              blob_text := Papa_unparse x (results s) |}
  end.

(** [results.length > 0]: the results table, with its download button,
    is rendered. *)
Definition results_shown (s : UIState) : bool :=
  negb (List.length (results s) =? 0).

End Flat.

(* ================================================================== *)
(** ** Sample inputs *)
(* ================================================================== *)

Definition csv_file : File := {| file_name := lit "companies.csv" |}.

(** A machine with a file selected, as [handleFileChange] leaves it. *)
Definition ready : Grouped.Machine :=
  {| Grouped.ui :=
       {| Grouped.file := Some csv_file;
          Grouped.message := None;
          Grouped.isLoading := false;
          Grouped.results := [];
          Grouped.processingStats := None;
          Grouped.groupedResults := Obj.empty |};
     Grouped.fileInput := Some (lit "C:\fakepath\companies.csv");
     Grouped.requests := [] |}.

Definition flat_ready : Flat.Machine :=
  {| Flat.ui :=
       {| Flat.file := Some csv_file;
          Flat.message := None;
          Flat.isLoading := false;
          Flat.results := [];
          Flat.processingStats := None |};
     Flat.fileInput := Some (lit "C:\fakepath\companies.csv");
     Flat.requests := [] |}.

(** A world in which the file parses to [data] and the webhook answers
    every request with [answer]. *)
Definition world (data : list Row) (answer : Await Http.Response) : World :=
  {| file_text := fun _ => Resolved [];
     Papa_parse_data := fun _ => data;
     fetch_answer := fun _ => answer;
     elapsed_seconds := lit "1.5";
     big_number_to_string := fun _ => [] |}.

Definition profile_of (company : option jsstring) : ProfileResult :=
  {| name := Some (lit "Ada"); title := Some (lit "Engineer");
     snippet := None; url := None; email := None; startDate := None;
     duration := None; search_company := company; search_region := None |}.

(** The body of Scenario C: a status and a profile list, nothing else. *)
Definition scenario_C_body : ProcessingResponse :=
  {| Resp.status := Some (lit "success");
     Resp.message := None;
     Resp.totalCompanies := None;
     Resp.totalProfiles := None;
     Resp.processedCompanies := None;
     Resp.profiles := Some [profile_of (Some (lit "Acme"))];
     Resp.timestamp := None |}.

(** A 200 response whose body is the JSON value [null]. *)
Definition null_answer : Await Http.Response :=
  Resolved {| Http.status := 200; Http.json := Resolved Http.BodyNull |}.

(** A numeral of four hundred nines, beyond the range of a double. *)
Definition huge_numeral : jsstring := repeat 57%N 400.

Definition answer_of (code : N) (body : ProcessingResponse)
  : Await Http.Response :=
  Resolved {| Http.status := code;
              Http.json := Resolved (Http.BodyObject body) |}.

Definition negative_max_row : Row := row3 "Acme" "US" "-5".

Definition blank_name_row : Row := row "   " "US".

Definition two_rows : list Row := [row "Acme" "US"; row3 "Globex" "FR" "50"].

Definition quota_body : ProcessingResponse :=
  {| Resp.status := Some (lit "error");
     Resp.message := Some (lit "Quota exceeded");
     Resp.totalCompanies := None;
     Resp.totalProfiles := None;
     Resp.processedCompanies := None;
     Resp.profiles := None;
     Resp.timestamp := None |}.

Definition counted_body : ProcessingResponse :=
  {| Resp.status := Some (lit "success");
     Resp.message := Some (lit "done");
     Resp.totalCompanies := Some (Fin 1);
     Resp.totalProfiles := Some (Fin 1);
     Resp.processedCompanies := Some [lit "Acme"];
     Resp.profiles := Some [profile_of (Some (lit "Acme"))];
     Resp.timestamp := None |}.

Definition numeric_name_sample : list ProfileResult :=
  [profile_of (Some (lit "Beta")); profile_of (Some (lit "1688"))].

Definition prototype_name_sample : list ProfileResult :=
  [profile_of (Some (lit "constructor"))].

Definition three_profiles : list ProfileResult :=
  [profile_of (Some (lit "Acme")); profile_of (Some (lit "Globex"));
   profile_of (Some (lit "Acme"))].

Definition unreadable_world : World :=
  {| file_text := fun _ => Rejected (mkError (lit "NotReadableError"));
     Papa_parse_data := fun _ => [];
     fetch_answer := fun _ => Rejected (mkError []);
     elapsed_seconds := lit "0.0";
     big_number_to_string := fun _ => [] |}.

Definition constructor_body : ProcessingResponse :=
  {| Resp.status := Some (lit "success");
     Resp.message := None;
     Resp.totalCompanies := Some (Fin 1);
     Resp.totalProfiles := Some (Fin 1);
     Resp.processedCompanies := None;
     Resp.profiles := Some prototype_name_sample;
     Resp.timestamp := None |}.

(* ================================================================== *)
(** ** Vocabulary of the statements *)
(* ================================================================== *)

(** The machine once the handler has run to its end. *)
Definition grouped_after (w : World) (m : Grouped.Machine) : Grouped.Machine :=
  snd (Grouped.handleUpload w m).

Definition flat_after (w : World) (fm : Flat.Machine) : Flat.Machine :=
  snd (Flat.handleUpload w fm).

Definition error_shown (msg : option Message) (t : jsstring) : Prop :=
  msg = Some {| text := t; type := error |}.

(** The message a failed response supplies, or the fallback. *)
Definition server_message_or_fallback (result : ProcessingResponse)
  (t : jsstring) : Prop :=
  (forall msg, Resp.message result = Some msg -> msg <> [] -> t = msg) /\
  (Resp.message result = None \/ Resp.message result = Some [] ->
   t = lit "Processing failed").

(** [processingStats.totalProfiles], the value the statistics block is
    given, when there are statistics. *)
Definition held_totalProfiles (s : Grouped.UIState) : option number :=
  option_map Grouped.totalProfiles (Grouped.processingStats s).

(** The distinct elements of a list, each at its first occurrence. *)
Fixpoint first_seen (l : list jsstring) : list jsstring :=
  match l with
  | k :: l' => k :: filter (fun x => negb (Js.eqb x k)) (first_seen l')
  | [] => []
  end.

(** The keys the page shows, in display order, when grouping returns. *)
Definition shown_keys (profiles : list ProfileResult)
  : option (list jsstring) :=
  match Grouped.group_by_company profiles with
  | inr grouped => Some (Obj.keys grouped)
  | inl _ => None
  end.

(** The profiles that share a grouping key, in arrival order. *)
Definition members_of (k : jsstring) (profiles : list ProfileResult)
  : list ProfileResult :=
  filter (fun p => Js.eqb (Grouped.companyKey p) k) profiles.

(** A group's array after more profiles have been pushed. *)
Definition pushed (before : option (list ProfileResult))
  (more : list ProfileResult) : option (list ProfileResult) :=
  match before, more with
  | Some members, _ => Some (members ++ more)
  | None, [] => None
  | None, _ :: _ => Some more
  end.

Definition unseen (keys : list jsstring) (k : jsstring) : bool :=
  negb (existsb (Js.eqb k) keys).

(** The machines the [finally] block leaves behind, up to the message,
    the results and the requests sent. *)
Definition grouped_end (m : Grouped.Machine) (msg : Message)
  (res : list ProfileResult) (st : option Grouped.Stats)
  (gr : Obj.t (list ProfileResult)) (sent : list Http.Request)
  : Grouped.Machine :=
  {| Grouped.ui :=
       {| Grouped.file := None; Grouped.message := Some msg;
          Grouped.isLoading := false; Grouped.results := res;
          Grouped.processingStats := st; Grouped.groupedResults := gr |};
     Grouped.fileInput := cleared (Grouped.fileInput m);
     Grouped.requests := Grouped.requests m ++ sent |}.

Definition flat_end (fm : Flat.Machine) (msg : Message)
  (res : list ProfileResult) (st : option Flat.Stats)
  (sent : list Http.Request) : Flat.Machine :=
  {| Flat.ui :=
       {| Flat.file := None; Flat.message := Some msg;
          Flat.isLoading := false; Flat.results := res;
          Flat.processingStats := st |};
     Flat.fileInput := cleared (Flat.fileInput fm);
     Flat.requests := Flat.requests fm ++ sent |}.

(** No white space at the start of a string. *)
Definition starts_clean (s : jsstring) : bool :=
  match s with
  | c :: _ => negb (is_white_space c)
  | [] => true
  end.

(** No white space at either end of a string. *)
Definition clean_ends (s : jsstring) : Prop :=
  starts_clean s = true /\ starts_clean (rev s) = true.

(** The machine with another message. *)
Definition grouped_with_message (m : Grouped.Machine) (msg : Message)
  : Grouped.Machine :=
  {| Grouped.ui :=
       {| Grouped.file := Grouped.file (Grouped.ui m);
          Grouped.message := Some msg;
          Grouped.isLoading := Grouped.isLoading (Grouped.ui m);
          Grouped.results := Grouped.results (Grouped.ui m);
          Grouped.processingStats := Grouped.processingStats (Grouped.ui m);
          Grouped.groupedResults := Grouped.groupedResults (Grouped.ui m) |};
     Grouped.fileInput := Grouped.fileInput m;
     Grouped.requests := Grouped.requests m |}.

Definition flat_with_message (fm : Flat.Machine) (msg : Message)
  : Flat.Machine :=
  {| Flat.ui :=
       {| Flat.file := Flat.file (Flat.ui fm);
          Flat.message := Some msg;
          Flat.isLoading := Flat.isLoading (Flat.ui fm);
          Flat.results := Flat.results (Flat.ui fm);
          Flat.processingStats := Flat.processingStats (Flat.ui fm) |};
     Flat.fileInput := Flat.fileInput fm;
     Flat.requests := Flat.requests fm |}.

(** The machine after a file has been accepted. *)
Definition grouped_selected (m : Grouped.Machine) (f : File)
  : Grouped.Machine :=
  {| Grouped.ui :=
       {| Grouped.file := Some f;
          Grouped.message :=
            Some {| text := lit "Ready to upload: " ++ file_name f;
                    type := info |};
          Grouped.isLoading := Grouped.isLoading (Grouped.ui m);
          Grouped.results := [];
          Grouped.processingStats := None;
          Grouped.groupedResults := Obj.empty |};
     Grouped.fileInput := Grouped.fileInput m;
     Grouped.requests := Grouped.requests m |}.

Definition flat_selected (fm : Flat.Machine) (f : File) : Flat.Machine :=
  {| Flat.ui :=
       {| Flat.file := Some f;
          Flat.message :=
            Some {| text := lit "Ready to upload: " ++ file_name f;
                    type := info |};
          Flat.isLoading := Flat.isLoading (Flat.ui fm);
          Flat.results := [];
          Flat.processingStats := None |};
     Flat.fileInput := Flat.fileInput fm;
     Flat.requests := Flat.requests fm |}.

(** The requests one submission of file [f] issues in world [w]. *)
Definition sent_by (w : World) (f : File) : list Http.Request :=
  match file_text w f with
  | Resolved csv =>
      match cleanedCompanies (Papa_parse_data w csv) with
      | [] => []
      | cleaned => [webhook_request cleaned]
      end
  | Rejected _ => []
  end.

(** How the [catch] block words a thrown error. *)
Definition reported (e : JsError) (t : jsstring) : Prop :=
  (err_message e <> [] -> t = err_message e) /\
  (err_message e = [] -> t = lit "Failed to process file").

(** The number of table rows over all the groups the page shows. *)
Definition shown_rows (o : Obj.t (list ProfileResult)) : nat :=
  list_sum (map (fun kv => List.length (snd kv)) (Obj.entries o)).

(** The object grouping builds when it does not throw: one property per
    distinct key, created in first-seen order. *)
Definition groups_of (profiles : list ProfileResult)
  : Obj.t (list ProfileResult) :=
  map (fun k => (k, members_of k profiles))
    (first_seen (map Grouped.companyKey profiles)).

(** What a success of the submission [w], [f] consists of. *)
Definition answered_with (w : World) (f : File)
  (result : ProcessingResponse) (profs : list ProfileResult) : Prop :=
  exists csv response,
    file_text w f = Resolved csv /\
    fetch_answer w
      (webhook_request (cleanedCompanies (Papa_parse_data w csv)))
      = Resolved response /\
    Http.ok response = true /\
    Http.json response = Resolved (Http.BodyObject result) /\
    Resp.status result = Some (lit "success") /\
    Resp.profiles result = Some profs.

(** The component as first rendered: the initial values of its state
    cells. *)
Definition grouped_initial (input : option jsstring) : Grouped.Machine :=
  {| Grouped.ui :=
       {| Grouped.file := None; Grouped.message := None;
          Grouped.isLoading := false; Grouped.results := [];
          Grouped.processingStats := None;
          Grouped.groupedResults := Obj.empty |};
     Grouped.fileInput := input;
     Grouped.requests := [] |}.

(** The browser has put a value in the file input. *)
Definition grouped_with_input (m : Grouped.Machine) (value : option jsstring)
  : Grouped.Machine :=
  {| Grouped.ui := Grouped.ui m; Grouped.fileInput := value;
     Grouped.requests := Grouped.requests m |}.

(** The machines the page is in between two events: the user picks files
    (or cancels the dialog) and submits, in any order and any world, each
    handler running to its end before the next event (no file is picked
    while a submission is awaiting). *)
Inductive grouped_reachable : Grouped.Machine -> Prop :=
| reach_initial (input : option jsstring) :
    grouped_reachable (grouped_initial input)
| reach_change (m : Grouped.Machine) (value : option jsstring)
    (selected : option File) :
    grouped_reachable m ->
    grouped_reachable
      (snd (Grouped.handleFileChange selected (grouped_with_input m value)))
| reach_submit (m : Grouped.Machine) (w : World) :
    grouped_reachable m ->
    grouped_reachable (snd (Grouped.handleUpload w m)).

Definition grouped_inv (s : Grouped.UIState) : Prop :=
  Grouped.isLoading s = false /\
  Grouped.groupedResults s = groups_of (Grouped.results s) /\
  (Grouped.results s <> [] -> Grouped.processingStats s <> None).

Definition is_digit (c : N) : bool := ((48 <=? c) && (c <=? 57))%N.

(** The value of a decimal numeral read most significant digit first,
    continuing from [acc]. *)
Fixpoint uint_value (acc : Z) (d : Decimal.uint) : Z :=
  match d with
  | Decimal.Nil => acc
  | Decimal.D0 l => uint_value (acc * 10 + 0) l
  | Decimal.D1 l => uint_value (acc * 10 + 1) l
  | Decimal.D2 l => uint_value (acc * 10 + 2) l
  | Decimal.D3 l => uint_value (acc * 10 + 3) l
  | Decimal.D4 l => uint_value (acc * 10 + 4) l
  | Decimal.D5 l => uint_value (acc * 10 + 5) l
  | Decimal.D6 l => uint_value (acc * 10 + 6) l
  | Decimal.D7 l => uint_value (acc * 10 + 7) l
  | Decimal.D8 l => uint_value (acc * 10 + 8) l
  | Decimal.D9 l => uint_value (acc * 10 + 9) l
  end.

Definition numeral (d : Decimal.uint) : jsstring :=
  lit (NilEmpty.string_of_uint d).

(** A request the page may send: a POST of JSON to the webhook whose
    body is a non-empty list of records, each built from a row with
    both raw fields non-empty and each with a usable "Max Results". *)
Definition well_formed_request (req : Http.Request) : Prop :=
  Http.url req = webhook_url /\
  Http.method req = lit "POST" /\
  Http.content_type req = lit "application/json" /\
  Http.body req <> [] /\
  forall u, In u (Http.body req) ->
    truthy_number (Max_Results u) = true /\
    clean_ends (Company_Name u) /\ clean_ends (Region u) /\
    exists company, valid_row company = true /\ u = clean_row company.

(** The statistics of the two pages, compared field by field. *)
Definition same_stats (a : option Grouped.Stats) (b : option Flat.Stats)
  : Prop :=
  match a, b with
  | Some x, Some y =>
      Grouped.totalCompanies x = Flat.totalCompanies y /\
      Grouped.totalProfiles x = Flat.totalProfiles y /\
      Grouped.processingTime x = Flat.processingTime y
  | None, None => True
  | _, _ => False
  end.

Definition flat_initial (input : option jsstring) : Flat.Machine :=
  {| Flat.ui :=
       {| Flat.file := None; Flat.message := None;
          Flat.isLoading := false; Flat.results := [];
          Flat.processingStats := None |};
     Flat.fileInput := input;
     Flat.requests := [] |}.

Definition flat_with_input (fm : Flat.Machine) (value : option jsstring)
  : Flat.Machine :=
  {| Flat.ui := Flat.ui fm; Flat.fileInput := value;
     Flat.requests := Flat.requests fm |}.

Inductive flat_reachable : Flat.Machine -> Prop :=
| flat_reach_initial (input : option jsstring) :
    flat_reachable (flat_initial input)
| flat_reach_change (fm : Flat.Machine) (value : option jsstring)
    (selected : option File) :
    flat_reachable fm ->
    flat_reachable
      (snd (Flat.handleFileChange selected (flat_with_input fm value)))
| flat_reach_submit (fm : Flat.Machine) (w : World) :
    flat_reachable fm ->
    flat_reachable (snd (Flat.handleUpload w fm)).

Definition flat_inv (fm : Flat.Machine) : Prop :=
  Flat.isLoading (Flat.ui fm) = false /\
  (Flat.results (Flat.ui fm) <> [] ->
   Flat.processingStats (Flat.ui fm) <> None) /\
  Forall well_formed_request (Flat.requests fm).

(* ================================================================== *)
(** ** The model on small inputs *)
(* ================================================================== *)

Example trim_ex :
  trim (lit "  Acme Corp  ") = lit "Acme Corp" /\ trim (lit "   ") = [].
Proof. split; reflexivity. Qed.

Example parseInt_ex :
  parseInt (Some (lit " 42")) = Fin 42 /\
  parseInt (Some (lit "12abc")) = Fin 12 /\
  parseInt (Some (lit "3.9")) = Fin 3 /\
  parseInt (Some (lit "0x1F")) = Fin 31 /\
  parseInt (Some (lit "-5")) = Fin (-5) /\
  parseInt (Some (lit "007")) = Fin 7 /\
  parseInt (Some (lit "abc")) = NaN /\
  parseInt (Some (lit "")) = NaN /\
  parseInt None = NaN /\
  parseInt (Some (lit "9007199254740993")) = Fin 9007199254740992.
Proof. repeat split; vm_compute; reflexivity. Qed.

Example scenario_A :
  cleanedCompanies [row "Acme" "US"] =
  [{| Company_Name := lit "Acme"; Region := lit "US";
      Max_Results := Fin 20 |}].
Proof. reflexivity. Qed.

Example entries_order_ex :
  Obj.keys (Obj.set (Obj.set (Obj.set Obj.empty (lit "b") 1) (lit "10") 2)
              (lit "9") 3)
  = [lit "9"; lit "10"; lit "b"].
Proof. reflexivity. Qed.

(* ================================================================== *)
(** ** Strings: equality, truthiness, trimming *)
(* ================================================================== *)

Lemma eqb_refl (a : jsstring) : Js.eqb a a = true.
Proof.
  induction a as [|x a IH]; simpl; [reflexivity|].
  now rewrite N.eqb_refl, IH.
Qed.

Lemma eqb_eq (a b : jsstring) : Js.eqb a b = true <-> a = b.
Proof.
  split; [|intros ->; apply eqb_refl].
  revert b; induction a as [|x a IH]; intros [|y b]; simpl;
    try discriminate; [reflexivity|].
  intros H; apply andb_true_iff in H as [Hx Hab].
  apply N.eqb_eq in Hx; apply IH in Hab; congruence.
Qed.

Lemma eqb_neq (a b : jsstring) : Js.eqb a b = false <-> a <> b.
Proof.
  rewrite <- eqb_eq; destruct (Js.eqb a b); split;
    congruence || (intros H; now elim H).
Qed.

Lemma truthy_true (v : option jsstring) :
  truthy v = true <-> exists s, v = Some s /\ s <> [].
Proof.
  destruct v as [[|c s]|]; simpl; split;
    try discriminate; try reflexivity.
  - intros (s & [= <-] & H); now elim H.
  - intros _; exists (c :: s); split; [reflexivity|discriminate].
  - intros (s & H & _); discriminate.
Qed.

Lemma truthy_false (v : option jsstring) :
  truthy v = false <-> v = None \/ v = Some [].
Proof.
  destruct v as [[|c s]|]; simpl; split; intros H;
    try reflexivity; try discriminate; auto;
    destruct H; discriminate.
Qed.

Lemma includes_prefix (needle rest : jsstring) :
  includes needle (needle ++ rest).
Proof. now exists [], rest. Qed.

Lemma includes_suffix (pre needle : jsstring) :
  includes needle (pre ++ needle).
Proof. exists pre, []; now rewrite app_nil_r. Qed.

Lemma forallb_trimStart (s : jsstring) :
  forallb is_white_space (trimStart s) = forallb is_white_space s.
Proof.
  induction s as [|c s IH]; simpl; [reflexivity|].
  destruct (is_white_space c) eqn:E; simpl; [exact IH|now rewrite E].
Qed.

Lemma trimStart_nil (s : jsstring) :
  trimStart s = [] <-> forallb is_white_space s = true.
Proof.
  induction s as [|c s IH]; simpl; [tauto|].
  destruct (is_white_space c); simpl; [exact IH|].
  split; discriminate.
Qed.

Lemma forallb_rev {A : Type} (p : A -> bool) (l : list A) :
  forallb p (rev l) = forallb p l.
Proof.
  induction l as [|x l IH]; simpl; [reflexivity|].
  rewrite forallb_app, IH; simpl.
  now rewrite andb_true_r, andb_comm.
Qed.

(** Trimming leaves nothing exactly when every code unit is white
    space. *)
Lemma trim_nil (s : jsstring) :
  trim s = [] <-> forallb is_white_space s = true.
Proof.
  unfold trim, trimEnd.
  rewrite <- (forallb_trimStart s), <- (forallb_rev _ (trimStart s)).
  rewrite <- trimStart_nil.
  split; intros H.
  - apply (f_equal (@rev N)) in H; now rewrite rev_involutive in H.
  - now rewrite H.
Qed.

(* ================================================================== *)
(** ** CSV ingestion: the filter and the map *)
(* ================================================================== *)

Lemma valid_row_true (r : Row) :
  valid_row r = true <->
  exists c g, field r "Company Name" = Some c /\ c <> [] /\
              field r "Region" = Some g /\ g <> [].
Proof.
  unfold valid_row; rewrite andb_true_iff, !truthy_true; split.
  - intros [(c & Hc & Hc') (g & Hg & Hg')]; now exists c, g.
  - intros (c & g & Hc & Hc' & Hg & Hg'); split; eauto.
Qed.

Lemma valid_row_false (r : Row) :
  valid_row r = false <->
  (field r "Company Name" = None \/ field r "Company Name" = Some []) \/
  (field r "Region" = None \/ field r "Region" = Some []).
Proof.
  unfold valid_row; now rewrite andb_false_iff, !truthy_false.
Qed.

Lemma cleanedCompanies_app (a b : list Row) :
  cleanedCompanies (a ++ b) = cleanedCompanies a ++ cleanedCompanies b.
Proof. unfold cleanedCompanies; now rewrite filter_app, map_app. Qed.

Lemma cleanedCompanies_In (data : list Row) (u : UploadRecord) :
  In u (cleanedCompanies data) <->
  exists r, In r data /\ valid_row r = true /\ u = clean_row r.
Proof.
  unfold cleanedCompanies; rewrite in_map_iff; split.
  - intros (r & <- & Hr); apply filter_In in Hr as [Hin Hv]; eauto.
  - intros (r & Hin & Hv & ->); exists r; split; [reflexivity|].
    now apply filter_In.
Qed.

Lemma max_results_cases (r : Row) :
  Max_Results (clean_row r) =
  match parseInt (field r "Max Results") with
  | NaN => Fin 20
  | Inf s => Inf s
  | Fin n => if (n =? 0)%Z then Fin 20 else Fin n
  end.
Proof.
  unfold clean_row; simpl; unfold or_number.
  destruct (parseInt _) as [| |n]; simpl; try reflexivity.
  now destruct (n =? 0)%Z.
Qed.

(** C1, as stated, fails: a kept row whose "Max Results" parses to the
    negative integer -5 yields maxResults -5, not the default 20. *)
Lemma max_results_negative_not_defaulted :
  valid_row negative_max_row = true /\
  parseInt (field negative_max_row "Max Results") = Fin (-5) /\
  Max_Results (clean_row negative_max_row) = Fin (-5) /\
  Max_Results (clean_row negative_max_row) <> Fin 20.
Proof. repeat split; try reflexivity. discriminate. Qed.

(** C1 (amended): for every row the filter keeps, the record's maxResults
    is the number [parseInt] returns for the "Max Results" value when that
    is an integer other than zero (positive or negative) or an infinity (a
    numeral beyond the range of a double), and 20 when the value is
    absent, when [parseInt] yields NaN, or when it yields zero. *)
Theorem max_results_parsed_or_default (r : Row)
  (Hkept : valid_row r = true) :
  (forall n, parseInt (field r "Max Results") = Fin n -> n <> 0%Z ->
             Max_Results (clean_row r) = Fin n) /\
  (field r "Max Results" = None -> Max_Results (clean_row r) = Fin 20) /\
  (parseInt (field r "Max Results") = NaN ->
   Max_Results (clean_row r) = Fin 20) /\
  (parseInt (field r "Max Results") = Fin 0 ->
   Max_Results (clean_row r) = Fin 20) /\
  (forall negative, parseInt (field r "Max Results") = Inf negative ->
                    Max_Results (clean_row r) = Inf negative).
Proof.
  rewrite max_results_cases; repeat split.
  - intros n -> Hn. apply Z.eqb_neq in Hn; now rewrite Hn.
  - now intros ->.
  - now intros ->.
  - now intros ->.
  - now intros negative ->.
Qed.

(** A numeral too long for a double is read as Infinity, and the record
    carries Infinity: the default does not replace it. *)
Lemma huge_numeral_is_infinity :
  parseInt (Some huge_numeral) = Inf false /\
  Max_Results
    (clean_row (row "Acme" "US" ++ [(lit "Max Results", huge_numeral)]))
  = Inf false.
Proof. split; vm_compute; reflexivity. Qed.

Lemma max_results_parsed_or_default_witness :
  valid_row (row3 "Globex" "FR" "50") = true /\
  Max_Results (clean_row (row3 "Globex" "FR" "50")) = Fin 50.
Proof.
  split; [reflexivity|].
  apply (proj1 (max_results_parsed_or_default
                  (row3 "Globex" "FR" "50") eq_refl) 50%Z);
    [reflexivity|discriminate].
Defined.

(** C2, as stated, fails: a row whose "Company Name" holds only spaces
    passes the filter, which tests the untrimmed value, and yields a record
    whose companyName is empty. *)
Lemma blank_name_row_is_kept :
  valid_row blank_name_row = true /\
  cleanedCompanies [blank_name_row] =
  [{| Company_Name := []; Region := lit "US"; Max_Results := Fin 20 |}].
Proof. split; reflexivity. Qed.

(** C2 (amended): a row is dropped exactly when its "Company Name" or its
    "Region" is absent or the empty string, tested before trimming; a row
    that is kept has both values present and non-empty, its record carries
    their trimmed values at the row's position, and a trimmed value is
    non-empty exactly when the raw value has a code unit that is not white
    space. *)
Theorem rows_filtered_then_trimmed (pre post : list Row) (r : Row) :
  (valid_row r = false <->
   (field r "Company Name" = None \/ field r "Company Name" = Some []) \/
   (field r "Region" = None \/ field r "Region" = Some [])) /\
  (valid_row r = false ->
   cleanedCompanies (pre ++ r :: post) = cleanedCompanies (pre ++ post)) /\
  (valid_row r = true ->
   exists c g,
     field r "Company Name" = Some c /\ c <> [] /\
     field r "Region" = Some g /\ g <> [] /\
     cleanedCompanies (pre ++ r :: post) =
       cleanedCompanies pre ++
       {| Company_Name := trim c; Region := trim g;
          Max_Results := Max_Results (clean_row r) |}
       :: cleanedCompanies post /\
     (trim c <> [] <-> forallb is_white_space c = false) /\
     (trim g <> [] <-> forallb is_white_space g = false)).
Proof.
  split; [apply valid_row_false|split].
  - intros Hv. rewrite !cleanedCompanies_app.
    unfold cleanedCompanies at 2; simpl; now rewrite Hv.
  - intros Hv. destruct (proj1 (valid_row_true r) Hv)
      as (c & g & Hc & Hc' & Hg & Hg').
    exists c, g; repeat (split; [assumption|]).
    split; [|split].
    + rewrite cleanedCompanies_app. unfold cleanedCompanies at 2; simpl.
      rewrite Hv; simpl. unfold clean_row at 1; now rewrite Hc, Hg.
    + rewrite trim_nil. now destruct (forallb is_white_space c).
    + rewrite trim_nil. now destruct (forallb is_white_space g).
Qed.

(** C9: when every row of the parsed data has a non-empty "Company Name"
    and a non-empty "Region", the ingestor yields one record per row, in
    the rows' order. *)
Theorem all_rows_kept (data : list Row)
  (Hall : Forall (fun r => exists c g,
                    field r "Company Name" = Some c /\ c <> [] /\
                    field r "Region" = Some g /\ g <> []) data) :
  List.length (cleanedCompanies data) = List.length data /\
  cleanedCompanies data = map clean_row data.
Proof.
  assert (E : filter valid_row data = data).
  { induction Hall as [|r data Hr _ IH]; simpl; [reflexivity|].
    now rewrite (proj2 (valid_row_true r) Hr), IH. }
  unfold cleanedCompanies; rewrite E; split; [apply length_map|reflexivity].
Qed.

Lemma all_rows_kept_witness :
  List.length (cleanedCompanies two_rows) = 2 /\
  cleanedCompanies two_rows = map clean_row two_rows.
Proof.
  apply (all_rows_kept two_rows).
  repeat constructor.
  - exists (lit "Acme"), (lit "US"); repeat split; discriminate.
  - exists (lit "Globex"), (lit "FR"); repeat split; discriminate.
Defined.

(* ================================================================== *)
(** ** Running the submit handler *)
(* ================================================================== *)

Arguments lit : simpl never.
Arguments decimal : simpl never.
Arguments cleanedCompanies : simpl never.
Arguments no_valid_rows : simpl never.
Arguments http_error : simpl never.
Arguments webhook_request : simpl never.
Arguments or_string : simpl never.
Arguments or_number_opt : simpl never.
Arguments is_success : simpl never.
Arguments cleared : simpl never.
Arguments Http.ok : simpl never.
Arguments Grouped.processing_message : simpl never.
Arguments Grouped.success_message : simpl never.
Arguments Grouped.group_by_company : simpl never.
Arguments Flat.processing_message : simpl never.
Arguments Flat.success_message : simpl never.

Ltac run_grouped :=
  cbv [Grouped.handleUpload Grouped.upload_body Grouped.upload_catch
       Grouped.upload_finally Grouped.fetch Grouped.setFile
       Grouped.setMessage Grouped.setIsLoading Grouped.setResults
       Grouped.setProcessingStats Grouped.setGroupedResults
       Grouped.resetFileInput Grouped.on_ui
       bind try_catch_finally modify await ret throw throw_if];
  cbn.

Ltac run_flat :=
  cbv [Flat.handleUpload Flat.upload_body Flat.upload_catch
       Flat.upload_finally Flat.fetch Flat.setFile
       Flat.setMessage Flat.setIsLoading Flat.setResults
       Flat.setProcessingStats Flat.resetFileInput Flat.on_ui
       bind try_catch_finally modify await ret throw throw_if];
  cbn.

Ltac open_grouped m Hfile :=
  destruct m as [[? ? ? ? ? ?] ? ?]; cbn in Hfile; subst; run_grouped.

Ltac open_flat m Hfile :=
  destruct m as [[? ? ? ? ?] ? ?]; cbn in Hfile; subst; run_flat.

Lemma or_string_idem (v : option jsstring) (d e : jsstring) :
  d <> [] -> or_string (Some (or_string v d)) e = or_string v d.
Proof.
  intros Hd; destruct v as [[|c s]|]; try reflexivity;
    destruct d; try reflexivity; now elim Hd.
Qed.

Lemma cleaned_nil (data : list Row) :
  Forall (fun r => valid_row r = false) data <-> cleanedCompanies data = [].
Proof.
  unfold cleanedCompanies; split.
  - induction 1 as [|r data Hr _ IH]; simpl; [reflexivity|now rewrite Hr].
  - induction data as [|r data IH]; simpl; [constructor|].
    destruct (valid_row r) eqn:E; simpl; [discriminate|auto].
Qed.

Lemma length_eqb_0 {A : Type} (l : list A) :
  l <> [] -> (List.length l =? 0) = false.
Proof. destruct l; [now intros H; elim H|reflexivity]. Qed.

Lemma ok_status (r : Http.Response) :
  Http.ok r = false <-> (Http.status r < 200 \/ 299 < Http.status r)%N.
Proof.
  unfold Http.ok; rewrite andb_false_iff, N.leb_gt, N.leb_gt; tauto.
Qed.

Lemma is_success_true (result : ProcessingResponse) :
  is_success result = true <-> Resp.status result = Some (lit "success").
Proof.
  unfold is_success; destruct (Resp.status result) as [s|].
  - rewrite eqb_eq; split; congruence.
  - split; discriminate.
Qed.

Section Submission.
Variables (w : World) (f : File).
Variables (m : Grouped.Machine) (fm : Flat.Machine).
Hypothesis Hfile : Grouped.file (Grouped.ui m) = Some f.
Hypothesis Hflat : Flat.file (Flat.ui fm) = Some f.

(** The file's text cannot be read. *)
Lemma grouped_run_unreadable (e : JsError) :
  file_text w f = Rejected e ->
  Grouped.handleUpload w m =
  (inr tt, grouped_end m
     {| text := or_string (Some (err_message e))
                  (lit "Failed to process file"); type := error |}
     [] None Obj.empty []).
Proof.
  intros Ht. unfold grouped_end. open_grouped m Hfile.
  rewrite Ht; cbn. now rewrite app_nil_r.
Qed.

Section Parsed.
Variable csv : jsstring.
Hypothesis Htext : file_text w f = Resolved csv.

Let cleaned := cleanedCompanies (Papa_parse_data w csv).

(** No row passes the filter. *)
Lemma grouped_run_invalid :
  cleaned = [] ->
  Grouped.handleUpload w m =
  (inr tt, grouped_end m {| text := no_valid_rows; type := error |}
             [] None Obj.empty []).
Proof.
  subst cleaned; intros Hc. unfold grouped_end. open_grouped m Hfile.
  rewrite Htext; cbn. rewrite Hc; cbn. now rewrite app_nil_r.
Qed.

Lemma flat_run_invalid :
  cleaned = [] ->
  Flat.handleUpload w fm =
  (inr tt, flat_end fm {| text := no_valid_rows; type := error |}
             [] None []).
Proof.
  subst cleaned; intros Hc. unfold flat_end. open_flat fm Hflat.
  rewrite Htext; cbn. rewrite Hc; cbn. now rewrite app_nil_r.
Qed.

Section Dispatched.
Hypothesis Hrows : cleaned <> [].
Variable response : Http.Response.
Hypothesis Hfetch :
  fetch_answer w (webhook_request cleaned) = Resolved response.

(** The response is not in the 2xx range. *)
Lemma grouped_run_not_ok :
  Http.ok response = false ->
  Grouped.handleUpload w m =
  (inr tt, grouped_end m
     {| text := http_error (Http.status response); type := error |}
     [] None Obj.empty [webhook_request cleaned]).
Proof.
  subst cleaned; intros Hok. unfold grouped_end.
  open_grouped m Hfile.
  rewrite Htext; cbn. rewrite (length_eqb_0 _ Hrows); cbn.
  rewrite Hfetch; cbn. now rewrite Hok.
Qed.

Lemma flat_run_not_ok :
  Http.ok response = false ->
  Flat.handleUpload w fm =
  (inr tt, flat_end fm
     {| text := http_error (Http.status response); type := error |}
     [] None [webhook_request cleaned]).
Proof.
  subst cleaned; intros Hok. unfold flat_end. open_flat fm Hflat.
  rewrite Htext; cbn. rewrite (length_eqb_0 _ Hrows); cbn.
  rewrite Hfetch; cbn. now rewrite Hok.
Qed.

Section Answered.
Hypothesis Hok : Http.ok response = true.
Variable result : ProcessingResponse.
Hypothesis Hjson : Http.json response = Resolved (Http.BodyObject result).

(** The body does not report success with a profile list. *)
Lemma grouped_run_failed :
  is_success result = false \/ Resp.profiles result = None ->
  Grouped.handleUpload w m =
  (inr tt, grouped_end m
     {| text := or_string (Resp.message result)
                  (lit "Processing failed"); type := error |}
     [] None Obj.empty [webhook_request cleaned]).
Proof.
  subst cleaned; intros Hbad. unfold grouped_end.
  open_grouped m Hfile.
  rewrite Htext; cbn. rewrite (length_eqb_0 _ Hrows); cbn.
  rewrite Hfetch; cbn. rewrite Hok; cbn. rewrite Hjson; cbn.
  destruct Hbad as [-> | ->]; [|destruct (is_success result)];
    cbn; now rewrite or_string_idem.
Qed.

Lemma flat_run_failed :
  is_success result = false \/ Resp.profiles result = None ->
  Flat.handleUpload w fm =
  (inr tt, flat_end fm
     {| text := or_string (Resp.message result)
                  (lit "Processing failed"); type := error |}
     [] None [webhook_request cleaned]).
Proof.
  subst cleaned; intros Hbad. unfold flat_end. open_flat fm Hflat.
  rewrite Htext; cbn. rewrite (length_eqb_0 _ Hrows); cbn.
  rewrite Hfetch; cbn. rewrite Hok; cbn. rewrite Hjson; cbn.
  destruct Hbad as [-> | ->]; [|destruct (is_success result)];
    cbn; now rewrite or_string_idem.
Qed.

(** The body reports success and the profiles group without a
    throw. *)
Lemma grouped_run_success (profs : list ProfileResult)
  (grouped : Obj.t (list ProfileResult)) :
  is_success result = true ->
  Resp.profiles result = Some profs ->
  Grouped.group_by_company profs = inr grouped ->
  Grouped.handleUpload w m =
  (inr tt, grouped_end m
     {| text := Grouped.success_message w result; type := success |}
     profs
     (Some {| Grouped.totalCompanies :=
                or_number_opt (Resp.totalCompanies result) (Fin 0);
              Grouped.totalProfiles :=
                or_number_opt (Resp.totalProfiles result) (Fin 0);
              Grouped.processedCompanies :=
                match Resp.processedCompanies result with
                | Some l => l
                | None => []
                end;
              Grouped.processingTime :=
                elapsed_seconds w ++ lit "s" |})
     grouped [webhook_request cleaned]).
Proof.
  subst cleaned; intros Hs Hp Hg. unfold grouped_end.
  open_grouped m Hfile.
  rewrite Htext; cbn. rewrite (length_eqb_0 _ Hrows); cbn.
  rewrite Hfetch; cbn. rewrite Hok; cbn. rewrite Hjson; cbn.
  rewrite Hs, Hp; cbn. now rewrite Hg.
Qed.
End Answered.
End Dispatched.
End Parsed.
End Submission.

Lemma no_valid_rows_found : includes (lit "No valid rows found") no_valid_rows.
Proof. exists [], (skipn 19 no_valid_rows); reflexivity. Qed.

(** C3, as stated, fails: the only row has a "Company Name" of spaces,
    empty after trimming, so no row is valid in the spec's sense; yet the
    filter, which tests the untrimmed value, keeps it, one request goes
    out and the submission ends in success, not in "No valid rows
    found". *)
Lemma blank_name_row_is_dispatched :
  trim_field (field blank_name_row "Company Name") = [] /\
  Grouped.requests
    (grouped_after (world [blank_name_row] (answer_of 200 counted_body))
       ready)
  = [webhook_request
       [{| Company_Name := []; Region := lit "US"; Max_Results := Fin 20 |}]]
  /\
  option_map type
    (Grouped.message (Grouped.ui
       (grouped_after (world [blank_name_row] (answer_of 200 counted_body))
          ready)))
  = Some success.
Proof. repeat split. Qed.

(** C3 (amended): when no row of the parsed data passes the filter, that
    is, when every row has its "Company Name" or its "Region" absent or
    empty before trimming, the submit flow ends with the error message
    that contains "No valid rows found", and the list of issued requests
    is unchanged: no call to the webhook. *)
Theorem invalid_csv_fails_before_fetch
  (w : World) (f : File) (m : Grouped.Machine) (fm : Flat.Machine)
  (csv : jsstring)
  (Hfile : Grouped.file (Grouped.ui m) = Some f)
  (Hflat : Flat.file (Flat.ui fm) = Some f)
  (Htext : file_text w f = Resolved csv)
  (Hnone : Forall
             (fun r =>
                (field r "Company Name" = None \/
                 field r "Company Name" = Some []) \/
                (field r "Region" = None \/ field r "Region" = Some []))
             (Papa_parse_data w csv)) :
  (error_shown (Grouped.message (Grouped.ui (grouped_after w m)))
     no_valid_rows /\
   Grouped.requests (grouped_after w m) = Grouped.requests m) /\
  (error_shown (Flat.message (Flat.ui (flat_after w fm))) no_valid_rows /\
   Flat.requests (flat_after w fm) = Flat.requests fm) /\
  includes (lit "No valid rows found") no_valid_rows.
Proof.
  assert (Hinvalid : Forall (fun r => valid_row r = false)
                       (Papa_parse_data w csv)).
  { eapply Forall_impl; [|exact Hnone]. intros r Hr; now apply valid_row_false. }
  clear Hnone; rename Hinvalid into Hnone.
  apply cleaned_nil in Hnone. unfold grouped_after, flat_after.
  rewrite (grouped_run_invalid w f m Hfile csv Htext Hnone).
  rewrite (flat_run_invalid w f fm Hflat csv Htext Hnone).
  cbn. rewrite !app_nil_r.
  repeat split; apply no_valid_rows_found.
Qed.

Lemma invalid_csv_fails_before_fetch_witness :
  error_shown
    (Grouped.message (Grouped.ui
       (grouped_after (world [row "" "US"] (answer_of 200 scenario_C_body))
          ready)))
    no_valid_rows /\
  Grouped.requests
    (grouped_after (world [row "" "US"] (answer_of 200 scenario_C_body))
       ready) = [].
Proof.
  apply (invalid_csv_fails_before_fetch
           (world [row "" "US"] (answer_of 200 scenario_C_body))
           csv_file ready flat_ready [] eq_refl eq_refl eq_refl).
  constructor; [left; right; reflexivity|constructor].
Defined.

(** C7: when the response's status is outside 200-299, the submit flow
    ends with an error message that contains the status code in decimal;
    the loading flag is false and the selected file is cleared. *)
Theorem http_failure_reports_status
  (w : World) (f : File) (m : Grouped.Machine) (fm : Flat.Machine)
  (csv : jsstring) (response : Http.Response)
  (Hfile : Grouped.file (Grouped.ui m) = Some f)
  (Hflat : Flat.file (Flat.ui fm) = Some f)
  (Htext : file_text w f = Resolved csv)
  (Hrows : cleanedCompanies (Papa_parse_data w csv) <> [])
  (Hfetch : fetch_answer w
              (webhook_request (cleanedCompanies (Papa_parse_data w csv)))
            = Resolved response)
  (Hstatus : (Http.status response < 200 \/ 299 < Http.status response)%N) :
  let code := decimal (Z.of_N (Http.status response)) in
  (exists t,
     error_shown (Grouped.message (Grouped.ui (grouped_after w m))) t /\
     includes code t /\
     Grouped.isLoading (Grouped.ui (grouped_after w m)) = false /\
     Grouped.file (Grouped.ui (grouped_after w m)) = None /\
     Grouped.fileInput (grouped_after w m) = cleared (Grouped.fileInput m)) /\
  (exists t,
     error_shown (Flat.message (Flat.ui (flat_after w fm))) t /\
     includes code t /\
     Flat.isLoading (Flat.ui (flat_after w fm)) = false /\
     Flat.file (Flat.ui (flat_after w fm)) = None /\
     Flat.fileInput (flat_after w fm) = cleared (Flat.fileInput fm)).
Proof.
  apply ok_status in Hstatus. unfold grouped_after, flat_after.
  rewrite (grouped_run_not_ok w f m Hfile csv Htext Hrows response
             Hfetch Hstatus).
  rewrite (flat_run_not_ok w f fm Hflat csv Htext Hrows response
             Hfetch Hstatus).
  cbn. split; exists (http_error (Http.status response));
    repeat split; apply includes_suffix.
Qed.

Lemma http_failure_reports_status_witness :
  exists t,
    error_shown
      (Grouped.message (Grouped.ui
         (grouped_after
            (world [row "Acme" "US"] (answer_of 500 scenario_C_body))
            ready))) t /\
    includes (lit "500") t.
Proof.
  destruct (http_failure_reports_status
              (world [row "Acme" "US"] (answer_of 500 scenario_C_body))
              csv_file ready flat_ready [] _ eq_refl eq_refl eq_refl
              ltac:(discriminate) eq_refl ltac:(right; reflexivity))
    as [(t & Ht & Hin & _) _].
  exists t; split; [exact Ht|exact Hin].
Defined.

Lemma or_string_message (result : ProcessingResponse) :
  server_message_or_fallback result
    (or_string (Resp.message result) (lit "Processing failed")).
Proof.
  split.
  - intros msg -> Hmsg; destruct msg; [now elim Hmsg|reflexivity].
  - intros [-> | ->]; reflexivity.
Qed.

(** C8, as stated, fails: the well-formed JSON body [null] has no
    profiles field, and reading its status throws; the message shown is
    the TypeError's, neither a server message nor "Processing failed". *)
Lemma null_body_reports_type_error :
  error_shown
    (Grouped.message (Grouped.ui
       (grouped_after (world [row "Acme" "US"] null_answer) ready)))
    (lit "Cannot read properties of null (reading 'status')") /\
  error_shown
    (Flat.message (Flat.ui
       (flat_after (world [row "Acme" "US"] null_answer) flat_ready)))
    (lit "Cannot read properties of null (reading 'status')") /\
  lit "Cannot read properties of null (reading 'status')"
    <> lit "Processing failed".
Proof. repeat split. discriminate. Qed.

(** C8 (amended): when a 2xx response decodes to a JSON value other than
    [null], with the fields it has typed as in [ProcessingResponse], whose
    status is not "success" or whose profiles field is absent, the submit
    flow ends with an error message that is the body's message field when
    that is a non-empty string, and "Processing failed" otherwise. *)
Theorem failed_body_reports_server_message
  (w : World) (f : File) (m : Grouped.Machine) (fm : Flat.Machine)
  (csv : jsstring) (response : Http.Response) (result : ProcessingResponse)
  (Hfile : Grouped.file (Grouped.ui m) = Some f)
  (Hflat : Flat.file (Flat.ui fm) = Some f)
  (Htext : file_text w f = Resolved csv)
  (Hrows : cleanedCompanies (Papa_parse_data w csv) <> [])
  (Hfetch : fetch_answer w
              (webhook_request (cleanedCompanies (Papa_parse_data w csv)))
            = Resolved response)
  (Hok : Http.ok response = true)
  (Hjson : Http.json response = Resolved (Http.BodyObject result))
  (Hbad : Resp.status result <> Some (lit "success") \/
          Resp.profiles result = None) :
  (exists t,
     error_shown (Grouped.message (Grouped.ui (grouped_after w m))) t /\
     server_message_or_fallback result t) /\
  (exists t,
     error_shown (Flat.message (Flat.ui (flat_after w fm))) t /\
     server_message_or_fallback result t).
Proof.
  assert (Hbad' : is_success result = false \/ Resp.profiles result = None).
  { destruct Hbad as [Hs|Hp]; [left|now right].
    destruct (is_success result) eqn:E; [|reflexivity].
    now apply is_success_true in E. }
  unfold grouped_after, flat_after.
  rewrite (grouped_run_failed w f m Hfile csv Htext Hrows response
             Hfetch Hok result Hjson Hbad').
  rewrite (flat_run_failed w f fm Hflat csv Htext Hrows response
             Hfetch Hok result Hjson Hbad').
  cbn. split; eexists; (split; [reflexivity|apply or_string_message]).
Qed.

Lemma failed_body_reports_server_message_witness :
  error_shown
    (Grouped.message (Grouped.ui
       (grouped_after (world [row "Acme" "US"] (answer_of 200 quota_body))
          ready)))
    (lit "Quota exceeded").
Proof.
  destruct (failed_body_reports_server_message
              (world [row "Acme" "US"] (answer_of 200 quota_body))
              csv_file ready flat_ready [] _ quota_body
              eq_refl eq_refl eq_refl ltac:(discriminate) eq_refl eq_refl
              eq_refl ltac:(left; discriminate))
    as [(t & Ht & Hmsg & _) _].
  rewrite <- (Hmsg (lit "Quota exceeded") eq_refl ltac:(discriminate)).
  exact Ht.
Defined.

Lemma grouped_no_file (w : World) (m : Grouped.Machine) :
  Grouped.file (Grouped.ui m) = None -> Grouped.handleUpload w m = (inr tt, m).
Proof. intros H; unfold Grouped.handleUpload; now rewrite H. Qed.

Lemma flat_no_file (w : World) (fm : Flat.Machine) :
  Flat.file (Flat.ui fm) = None -> Flat.handleUpload w fm = (inr tt, fm).
Proof. intros H; unfold Flat.handleUpload; now rewrite H. Qed.

Lemma grouped_always_ends (w : World) (f : File) (m : Grouped.Machine) :
  Grouped.file (Grouped.ui m) = Some f ->
  fst (Grouped.handleUpload w m) = inr tt /\
  Grouped.isLoading (Grouped.ui (grouped_after w m)) = false /\
  Grouped.file (Grouped.ui (grouped_after w m)) = None /\
  Grouped.fileInput (grouped_after w m) = cleared (Grouped.fileInput m).
Proof.
  intros Hfile. unfold grouped_after. open_grouped m Hfile.
  destruct (file_text w f) as [csv|e]; cbn; [|now repeat split].
  destruct (List.length _ =? 0); cbn; [now repeat split|].
  destruct (fetch_answer w _) as [response|e]; cbn; [|now repeat split].
  destruct (Http.ok response); cbn; [|now repeat split].
  destruct (Http.json response) as [[|result]|e]; cbn; [now repeat split| |now repeat split].
  destruct (is_success result); cbn; [|now repeat split].
  destruct (Resp.profiles result) as [profs|]; cbn; [|now repeat split].
  destruct (Grouped.group_by_company profs); cbn; now repeat split.
Qed.

Lemma flat_always_ends (w : World) (f : File) (fm : Flat.Machine) :
  Flat.file (Flat.ui fm) = Some f ->
  fst (Flat.handleUpload w fm) = inr tt /\
  Flat.isLoading (Flat.ui (flat_after w fm)) = false /\
  Flat.file (Flat.ui (flat_after w fm)) = None /\
  Flat.fileInput (flat_after w fm) = cleared (Flat.fileInput fm).
Proof.
  intros Hflat. unfold flat_after. open_flat fm Hflat.
  destruct (file_text w f) as [csv|e]; cbn; [|now repeat split].
  destruct (List.length _ =? 0); cbn; [now repeat split|].
  destruct (fetch_answer w _) as [response|e]; cbn; [|now repeat split].
  destruct (Http.ok response); cbn; [|now repeat split].
  destruct (Http.json response) as [[|result]|e]; cbn; [now repeat split| |now repeat split].
  destruct (is_success result); cbn; [|now repeat split].
  destruct (Resp.profiles result) as [profs|]; cbn; now repeat split.
Qed.

(** C10: once a file is selected, however the submission goes (the file
    unreadable, no valid row, the request rejected, a status outside 2xx,
    an undecodable, null or failed body, a throw while grouping, or
    success), the handler returns with the loading flag false, the
    selected file null and the file input's value reset to the empty
    string whatever it held (the input stays absent when the ref is not
    attached); the submit button is then disabled, and submitting again
    without selecting a file does nothing. *)
Theorem submission_always_clears_file
  (w : World) (f : File) (m : Grouped.Machine) (fm : Flat.Machine)
  (Hfile : Grouped.file (Grouped.ui m) = Some f)
  (Hflat : Flat.file (Flat.ui fm) = Some f) :
  (fst (Grouped.handleUpload w m) = inr tt /\
   Grouped.isLoading (Grouped.ui (grouped_after w m)) = false /\
   Grouped.file (Grouped.ui (grouped_after w m)) = None /\
   Grouped.fileInput (grouped_after w m) = cleared (Grouped.fileInput m) /\
   (forall value, Grouped.fileInput m = Some value ->
                  Grouped.fileInput (grouped_after w m) = Some []) /\
   (Grouped.fileInput m = None ->
    Grouped.fileInput (grouped_after w m) = None) /\
   Grouped.submit_disabled (Grouped.ui (grouped_after w m)) = true /\
   forall w', Grouped.handleUpload w' (grouped_after w m)
              = (inr tt, grouped_after w m)) /\
  (fst (Flat.handleUpload w fm) = inr tt /\
   Flat.isLoading (Flat.ui (flat_after w fm)) = false /\
   Flat.file (Flat.ui (flat_after w fm)) = None /\
   Flat.fileInput (flat_after w fm) = cleared (Flat.fileInput fm) /\
   (forall value, Flat.fileInput fm = Some value ->
                  Flat.fileInput (flat_after w fm) = Some []) /\
   (Flat.fileInput fm = None -> Flat.fileInput (flat_after w fm) = None) /\
   Flat.submit_disabled (Flat.ui (flat_after w fm)) = true /\
   forall w', Flat.handleUpload w' (flat_after w fm)
              = (inr tt, flat_after w fm)).
Proof.
  destruct (grouped_always_ends w f m Hfile) as (Hr & Hl & Hf & Hi).
  destruct (flat_always_ends w f fm Hflat) as (Hr' & Hl' & Hf' & Hi').
  split; repeat (split; [assumption|]).
  - split; [intros value Hv; now rewrite Hi, Hv|].
    split; [intros Hv; now rewrite Hi, Hv|].
    split; [unfold Grouped.submit_disabled; now rewrite Hl, Hf|].
    intros w'; now apply grouped_no_file.
  - split; [intros value Hv; now rewrite Hi', Hv|].
    split; [intros Hv; now rewrite Hi', Hv|].
    split; [unfold Flat.submit_disabled; now rewrite Hl', Hf'|].
    intros w'; now apply flat_no_file.
Qed.

Lemma submission_always_clears_file_witness :
  Grouped.isLoading (Grouped.ui
    (grouped_after (world [row "Acme" "US"] (answer_of 200 scenario_C_body))
       ready)) = false /\
  Grouped.file (Grouped.ui
    (grouped_after (world [row "Acme" "US"] (answer_of 200 scenario_C_body))
       ready)) = None /\
  Grouped.fileInput
    (grouped_after (world [row "Acme" "US"] (answer_of 200 scenario_C_body))
       ready) = Some [].
Proof.
  destruct (submission_always_clears_file
              (world [row "Acme" "US"] (answer_of 200 scenario_C_body))
              csv_file ready flat_ready eq_refl eq_refl)
    as [(_ & Hl & Hf & _ & Hv & _) _].
  split; [exact Hl|split; [exact Hf|]].
  exact (Hv (lit "C:\fakepath\companies.csv") eq_refl).
Defined.

Lemma group_single (p : ProfileResult) (company : jsstring) :
  search_company p = Some company -> company <> [] ->
  Obj.inherited company = false ->
  Grouped.group_by_company [p] = inr [(company, [p])].
Proof.
  intros Hp Hne Hinh.
  unfold Grouped.group_by_company, Grouped.forEach_group,
    Grouped.group_profile, Grouped.companyKey.
  rewrite Hp. destruct company as [|c s]; [now elim Hne|].
  unfold or_string, Obj.get; cbn [Obj.own_get Obj.empty].
  rewrite Hinh. unfold Obj.empty. cbn [Obj.set Obj.own_get].
  now rewrite (eqb_refl (c :: s)).
Qed.

(** C6, as stated, fails: for the response of Scenario C, which carries
    no totalProfiles field, the state holds the group "Acme" with its one
    row, but the totalProfiles handed to the summary is 0, not 1. *)
Lemma scenario_C_summary_shows_zero :
  Grouped.group_entries (Grouped.ui
    (grouped_after (world [row "Acme" "US"] (answer_of 200 scenario_C_body))
       ready)) = [(lit "Acme", [profile_of (Some (lit "Acme"))])] /\
  held_totalProfiles (Grouped.ui
    (grouped_after (world [row "Acme" "US"] (answer_of 200 scenario_C_body))
       ready)) = Some (Fin 0) /\
  held_totalProfiles (Grouped.ui
    (grouped_after (world [row "Acme" "US"] (answer_of 200 scenario_C_body))
       ready)) <> Some (Fin 1).
Proof. repeat split; try reflexivity. discriminate. Qed.

(** C6 (amended): when the server answers with status "success" and a
    profiles array holding exactly one profile whose search_company is
    "Acme", the component's state holds that profile as its results and
    one group "Acme" holding that one row as the only entry of
    groupedResults, and the totalProfiles of its statistics is the
    response's totalProfiles field when that is a non-zero number and 0
    when the field is absent or zero: it is 1 when the response says 1,
    and 0 for a response with no fields beyond the status and the profile
    list. What the render draws from that state is left out. *)
Theorem single_profile_presented
  (w : World) (f : File) (m : Grouped.Machine)
  (csv : jsstring) (response : Http.Response) (result : ProcessingResponse)
  (p : ProfileResult)
  (Hfile : Grouped.file (Grouped.ui m) = Some f)
  (Htext : file_text w f = Resolved csv)
  (Hrows : cleanedCompanies (Papa_parse_data w csv) <> [])
  (Hfetch : fetch_answer w
              (webhook_request (cleanedCompanies (Papa_parse_data w csv)))
            = Resolved response)
  (Hok : Http.ok response = true)
  (Hjson : Http.json response = Resolved (Http.BodyObject result))
  (Hstatus : Resp.status result = Some (lit "success"))
  (Hprofiles : Resp.profiles result = Some [p])
  (Hacme : search_company p = Some (lit "Acme")) :
  Grouped.group_entries (Grouped.ui (grouped_after w m))
    = [(lit "Acme", [p])] /\
  Grouped.results (Grouped.ui (grouped_after w m)) = [p] /\
  held_totalProfiles (Grouped.ui (grouped_after w m))
    = Some (or_number_opt (Resp.totalProfiles result) (Fin 0)) /\
  (Resp.totalProfiles result = Some (Fin 1) ->
   held_totalProfiles (Grouped.ui (grouped_after w m)) = Some (Fin 1)) /\
  (Resp.totalProfiles result = None ->
   held_totalProfiles (Grouped.ui (grouped_after w m)) = Some (Fin 0)) /\
  (forall n, Resp.totalProfiles result = Some (Fin n) -> n <> 0%Z ->
             held_totalProfiles (Grouped.ui (grouped_after w m))
             = Some (Fin n)) /\
  (Resp.totalProfiles result = Some (Fin 0) ->
   held_totalProfiles (Grouped.ui (grouped_after w m)) = Some (Fin 0)).
Proof.
  apply is_success_true in Hstatus.
  assert (Hg : Grouped.group_by_company [p] = inr [(lit "Acme", [p])]).
  { apply group_single; [exact Hacme|discriminate|reflexivity]. }
  unfold grouped_after.
  rewrite (grouped_run_success w f m Hfile csv Htext Hrows response
             Hfetch Hok result Hjson [p] _ Hstatus Hprofiles Hg).
  unfold held_totalProfiles; cbn.
  repeat split; try reflexivity; try (now intros ->).
  intros n -> Hn. unfold or_number_opt, or_number; simpl.
  apply Z.eqb_neq in Hn; now rewrite Hn.
Qed.

Lemma single_profile_presented_witness :
  Grouped.group_entries (Grouped.ui
    (grouped_after (world [row "Acme" "US"] (answer_of 200 counted_body))
       ready)) = [(lit "Acme", [profile_of (Some (lit "Acme"))])] /\
  held_totalProfiles (Grouped.ui
    (grouped_after (world [row "Acme" "US"] (answer_of 200 counted_body))
       ready)) = Some (Fin 1).
Proof.
  destruct (single_profile_presented
              (world [row "Acme" "US"] (answer_of 200 counted_body))
              csv_file ready [] _ counted_body
              (profile_of (Some (lit "Acme")))
              eq_refl eq_refl ltac:(discriminate) eq_refl eq_refl eq_refl
              eq_refl eq_refl eq_refl)
    as (Hg & _ & _ & Hone & _).
  split; [exact Hg|exact (Hone eq_refl)].
Defined.

(** In the state a successful submission leaves, the statistics are set,
    so the JSX builds an [<FiBuilding>] element; for Scenario C it does so
    in the statistics block and in the heading of the group. *)
Lemma success_builds_FiBuilding (s : Grouped.UIState) :
  Grouped.processingStats s <> None -> Grouped.builds_FiBuilding s = true.
Proof.
  unfold Grouped.builds_FiBuilding.
  destruct (Grouped.processingStats s); [reflexivity|now intros H; elim H].
Qed.

Lemma scenario_C_builds_FiBuilding :
  Grouped.builds_FiBuilding (Grouped.ui
    (grouped_after (world [row "Acme" "US"] (answer_of 200 scenario_C_body))
       ready)) = true.
Proof. reflexivity. Qed.

(* ================================================================== *)
(** ** Grouping by company *)
(* ================================================================== *)

Section ObjectLemmas.
Context {A : Type}.
Implicit Types (o : Obj.t A) (k : jsstring) (v : A).

Lemma own_get_None o k : Obj.own_get o k = None <-> ~ In k (map fst o).
Proof.
  induction o as [|[k' v'] o IH]; simpl; [tauto|].
  destruct (Js.eqb k' k) eqn:E.
  - apply eqb_eq in E; split; [discriminate|intros H; elim H; auto].
  - apply eqb_neq in E; rewrite IH; tauto.
Qed.

Lemma set_fresh o k v : Obj.own_get o k = None -> Obj.set o k v = o ++ [(k, v)].
Proof.
  induction o as [|[k' v'] o IH]; simpl; [reflexivity|].
  destruct (Js.eqb k' k); [discriminate|].
  intros H; now rewrite IH.
Qed.

Lemma own_get_set_same o k v : Obj.own_get (Obj.set o k v) k = Some v.
Proof.
  induction o as [|[k' v'] o IH]; simpl.
  - now rewrite eqb_refl.
  - destruct (Js.eqb k' k) eqn:E; simpl; now rewrite E.
Qed.

Lemma own_get_set_other o k k' v :
  Js.eqb k k' = false -> Obj.own_get (Obj.set o k v) k' = Obj.own_get o k'.
Proof.
  intros Hk; induction o as [|[k0 v0] o IH]; simpl.
  - now rewrite Hk.
  - destruct (Js.eqb k0 k) eqn:E; simpl; [|now rewrite IH].
    apply eqb_eq in E; subst k0; now rewrite Hk.
Qed.

Lemma set_set o k v v' : Obj.set (Obj.set o k v) k v' = Obj.set o k v'.
Proof.
  induction o as [|[k0 v0] o IH]; simpl.
  - now rewrite eqb_refl.
  - destruct (Js.eqb k0 k) eqn:E; simpl; rewrite E; [reflexivity|].
    now rewrite IH.
Qed.

Lemma keys_set_present o k v a :
  Obj.own_get o k = Some a -> map fst (Obj.set o k v) = map fst o.
Proof.
  induction o as [|[k0 v0] o IH]; simpl; [discriminate|].
  destruct (Js.eqb k0 k); simpl; [reflexivity|].
  intros H; now rewrite IH.
Qed.

Lemma own_get_In o k v :
  NoDup (map fst o) -> In (k, v) o -> Obj.own_get o k = Some v.
Proof.
  induction o as [|[k0 v0] o IH]; simpl; [tauto|].
  intros Hnd [[= -> ->]|Hin].
  - now rewrite eqb_refl.
  - inversion Hnd as [|? ? Hnot Hnd']; subst.
    destruct (Js.eqb k0 k) eqn:E; [|now apply IH].
    apply eqb_eq in E; subst k0. elim Hnot.
    change k with (fst (k, v)); now apply in_map.
Qed.

(** Without array-index keys, [Object.entries] lists the properties
    in creation order. *)
Lemma entries_creation_order o :
  Forall (fun k => Obj.array_index k = None) (map fst o) ->
  Obj.entries o = o.
Proof.
  intros H. unfold Obj.entries.
  assert (E : Obj.split_keys o = ([], o)).
  { induction o as [|[k v] o IH]; simpl; [reflexivity|].
    inversion H as [|? ? Hk Ho]; subst; simpl in Hk.
    now rewrite (IH Ho), Hk. }
  now rewrite E.
Qed.
End ObjectLemmas.

Lemma filter_swap {A : Type} (p q : A -> bool) (l : list A) :
  filter p (filter q l) = filter q (filter p l).
Proof.
  induction l as [|x l IH]; simpl; [reflexivity|].
  destruct (p x) eqn:Ep, (q x) eqn:Eq; simpl;
    rewrite ?Ep, ?Eq; now rewrite IH.
Qed.

Lemma first_seen_filter (p : jsstring -> bool) (l : list jsstring) :
  first_seen (filter p l) = filter p (first_seen l).
Proof.
  induction l as [|k l IH]; simpl; [reflexivity|].
  destruct (p k) eqn:E; simpl; rewrite IH.
  - f_equal; apply filter_swap.
  - clear IH.
    induction (first_seen l) as [|x r IHr]; simpl; [reflexivity|].
    destruct (Js.eqb x k) eqn:Exk; simpl.
    + apply eqb_eq in Exk; subst x; now rewrite E.
    + destruct (p x); simpl; now rewrite IHr.
Qed.

Lemma first_seen_In (k : jsstring) (l : list jsstring) :
  In k (first_seen l) <-> In k l.
Proof.
  induction l as [|x l IH]; simpl; [tauto|].
  rewrite filter_In, IH, negb_true_iff, eqb_neq.
  destruct (Js.eqb x k) eqn:E.
  - apply eqb_eq in E; tauto.
  - apply eqb_neq in E. intuition congruence.
Qed.

Lemma first_seen_NoDup (l : list jsstring) : NoDup (first_seen l).
Proof.
  induction l as [|x l IH]; simpl; constructor.
  - rewrite filter_In, negb_true_iff, eqb_neq; tauto.
  - now apply NoDup_filter.
Qed.

Lemma unseen_false (keys : list jsstring) (k : jsstring) :
  unseen keys k = false <-> In k keys.
Proof.
  unfold unseen; rewrite negb_false_iff, existsb_exists; split.
  - intros (x & Hin & E); apply eqb_eq in E; now subst.
  - intros Hin; exists k; split; [assumption|apply eqb_refl].
Qed.

Lemma unseen_snoc (keys : list jsstring) (k x : jsstring) :
  unseen (keys ++ [k]) x = unseen keys x && negb (Js.eqb x k).
Proof.
  unfold unseen; rewrite existsb_app; simpl.
  now rewrite orb_false_r, negb_orb.
Qed.

Lemma filter_unseen_nil (l : list jsstring) : filter (unseen []) l = l.
Proof. induction l as [|x l IH]; simpl; [reflexivity|now rewrite IH]. Qed.

Lemma group_profile_ordinary (g : Obj.t (list ProfileResult))
  (p : ProfileResult) :
  Obj.inherited (Grouped.companyKey p) = false ->
  Grouped.group_profile g p =
  inr (Obj.set g (Grouped.companyKey p)
         (match Obj.own_get g (Grouped.companyKey p) with
          | Some members => members ++ [p]
          | None => [p]
          end)).
Proof.
  intros Hinh. unfold Grouped.group_profile, Obj.get; cbv zeta.
  destruct (Obj.own_get g (Grouped.companyKey p)) as [members|] eqn:E.
  - now rewrite E.
  - rewrite Hinh, own_get_set_same; simpl. now rewrite set_set.
Qed.

Lemma forEach_group_ordinary (profiles : list ProfileResult) :
  Forall (fun p => Obj.inherited (Grouped.companyKey p) = false) profiles ->
  forall g : Obj.t (list ProfileResult),
  exists g',
    Grouped.forEach_group g profiles = inr g' /\
    map fst g' =
      map fst g ++
      first_seen (filter (unseen (map fst g))
                    (map Grouped.companyKey profiles)) /\
    forall k, Obj.own_get g' k = pushed (Obj.own_get g k) (members_of k profiles).
Proof.
  induction 1 as [|p profiles Hp _ IH]; intros g.
  - exists g; simpl; repeat split; [now rewrite app_nil_r|].
    intros k; destruct (Obj.own_get g k); simpl;
      [now rewrite app_nil_r|reflexivity].
  - simpl. rewrite (group_profile_ordinary g p Hp).
    set (key := Grouped.companyKey p).
    set (g1 := Obj.set g key _).
    destruct (IH g1) as (g' & Hrun & Hkeys & Hget).
    exists g'; split; [exact Hrun|split].
    + rewrite Hkeys; subst g1.
      destruct (Obj.own_get g key) as [members|] eqn:E.
      * rewrite (keys_set_present g key _ members E).
        assert (Hseen : unseen (map fst g) key = false).
        { apply unseen_false. destruct (in_dec (list_eq_dec N.eq_dec) key
                                          (map fst g)) as [Hin|Hnot];
            [assumption|]. apply own_get_None in Hnot; congruence. }
        now rewrite Hseen.
      * rewrite (set_fresh g key _ E), map_app; simpl.
        assert (Hnew : unseen (map fst g) key = true).
        { destruct (unseen (map fst g) key) eqn:U; [reflexivity|].
          apply unseen_false in U. now apply own_get_None in E. }
        rewrite Hnew; simpl. rewrite <- app_assoc; simpl.
        do 2 f_equal.
        rewrite <- first_seen_filter, filter_swap.
        f_equal. rewrite filter_swap.
        transitivity
          (filter (fun x => unseen (map fst g) x && negb (Js.eqb x key))
             (map Grouped.companyKey profiles)).
        { apply filter_ext; intros x; apply unseen_snoc. }
        clear; induction (map Grouped.companyKey profiles) as [|x l IHl];
          simpl; [reflexivity|].
        destruct (unseen (map fst g) x), (Js.eqb x key) eqn:Ex; simpl;
          rewrite ?Ex; simpl; now rewrite IHl.
    + intros k. rewrite Hget; subst g1. unfold members_of; simpl.
      fold key. destruct (Js.eqb key k) eqn:Ek.
      * apply eqb_eq in Ek; subst k. rewrite own_get_set_same.
        destruct (Obj.own_get g key) as [members|]; simpl;
          [now rewrite <- app_assoc|reflexivity].
      * now rewrite (own_get_set_other g key k _ Ek).
Qed.

(** C4, as stated, fails: a company whose name is a canonical array
    index is listed by [Object.entries] before the companies seen
    earlier, so the groups are not shown in first-seen order. *)
Lemma numeric_name_shown_first :
  first_seen (map Grouped.companyKey numeric_name_sample)
    = [lit "Beta"; lit "1688"] /\
  shown_keys numeric_name_sample = Some [lit "1688"; lit "Beta"].
Proof. split; reflexivity. Qed.

(** A company named like a property of [Object.prototype] makes the
    grouping throw, and a profile without a search_company (or with an
    empty one) is filed under "Unknown Company". *)
Lemma prototype_name_throws :
  Grouped.group_by_company prototype_name_sample
    = inl Grouped.push_is_not_a_function /\
  shown_keys [profile_of None; profile_of (Some [])]
    = Some [lit "Unknown Company"].
Proof. split; reflexivity. Qed.

(** C4 (amended): for every profile sequence in which no grouping key is
    a canonical array index or a property name inherited from
    [Object.prototype], the key of a profile being its search_company, or
    "Unknown Company" when that is absent or empty, grouping returns a
    mapping whose keys, in display order, are the distinct keys in
    first-seen order (so exactly as many keys as distinct values), and
    each group is the original sequence restricted to the profiles with
    that key, in their original order. *)
Theorem grouping_first_seen_and_stable (profiles : list ProfileResult)
  (Hordinary : Forall (fun p =>
                  Obj.inherited (Grouped.companyKey p) = false /\
                  Obj.array_index (Grouped.companyKey p) = None) profiles) :
  (forall p, Grouped.companyKey p =
             match search_company p with
             | Some (c :: s) => c :: s
             | _ => lit "Unknown Company"
             end) /\
  exists grouped,
    Grouped.group_by_company profiles = inr grouped /\
    Obj.keys grouped = first_seen (map Grouped.companyKey profiles) /\
    NoDup (Obj.keys grouped) /\
    (forall k, In k (Obj.keys grouped) <->
               In k (map Grouped.companyKey profiles)) /\
    Obj.entries grouped =
      map (fun k => (k, members_of k profiles)) (Obj.keys grouped).
Proof.
  split; [intros p; unfold Grouped.companyKey, or_string;
          now destruct (search_company p) as [[|c s]|]|].
  assert (Hinh : Forall (fun p => Obj.inherited (Grouped.companyKey p) = false)
                   profiles).
  { eapply Forall_impl; [|exact Hordinary]; now intros p [H _]. }
  destruct (forEach_group_ordinary profiles Hinh Obj.empty)
    as (g & Hrun & Hkeys & Hget).
  simpl in Hkeys.
  rewrite filter_unseen_nil in Hkeys.
  assert (Hentries : Obj.entries g = g).
  { apply entries_creation_order. rewrite Hkeys.
    apply Forall_forall; intros k Hk.
    apply (proj1 (first_seen_In _ _)) in Hk.
    apply in_map_iff in Hk as (p & <- & Hp).
    rewrite Forall_forall in Hordinary. now apply Hordinary. }
  assert (Hnd : NoDup (map fst g)) by (rewrite Hkeys; apply first_seen_NoDup).
  exists g; unfold Obj.keys; rewrite Hentries.
  split; [exact Hrun|]. split; [exact Hkeys|]. split; [exact Hnd|].
  split; [intros k; rewrite Hkeys; apply first_seen_In|].
  rewrite map_map.
  transitivity (map (fun kv : jsstring * list ProfileResult => kv) g);
    [now rewrite map_id|].
  apply map_ext_in; intros [k members] Hin; simpl.
  f_equal. pose proof (own_get_In g k members Hnd Hin) as Hown.
  rewrite Hget in Hown; simpl in Hown.
  destruct (members_of k profiles); [discriminate|congruence].
Qed.

Lemma grouping_first_seen_and_stable_witness :
  exists grouped,
    Grouped.group_by_company three_profiles = inr grouped /\
    Obj.keys grouped = [lit "Acme"; lit "Globex"].
Proof.
  destruct (grouping_first_seen_and_stable three_profiles
              ltac:(repeat constructor))
    as (_ & grouped & Hrun & Hkeys & _).
  exists grouped; split; [exact Hrun|exact Hkeys].
Defined.

(* ================================================================== *)
(** ** More on ingestion: what every dispatched record satisfies *)
(* ================================================================== *)

Lemma starts_clean_trimStart (s : jsstring) : starts_clean (trimStart s) = true.
Proof.
  induction s as [|c s IH]; simpl; [reflexivity|].
  destruct (is_white_space c) eqn:E; simpl; [exact IH|now rewrite E].
Qed.

Lemma trimStart_clean (s : jsstring) :
  starts_clean s = true -> trimStart s = s.
Proof.
  destruct s as [|c s]; simpl; [reflexivity|].
  now destruct (is_white_space c).
Qed.

Lemma trimStart_snoc (s : jsstring) (c : N) :
  is_white_space c = false -> trimStart (s ++ [c]) = trimStart s ++ [c].
Proof.
  intros Hc; induction s as [|x s IH]; simpl; [now rewrite Hc|].
  now destruct (is_white_space x).
Qed.

Lemma trimEnd_keeps_start (t : jsstring) :
  starts_clean t = true -> starts_clean (trimEnd t) = true.
Proof.
  unfold trimEnd; destruct t as [|c t]; simpl; [reflexivity|].
  intros Hc; apply negb_true_iff in Hc.
  rewrite (trimStart_snoc _ _ Hc), rev_app_distr; simpl.
  now rewrite Hc.
Qed.

Lemma clean_ends_trim (s : jsstring) : clean_ends (trim s).
Proof.
  unfold clean_ends, trim; split.
  - apply trimEnd_keeps_start, starts_clean_trimStart.
  - unfold trimEnd; rewrite rev_involutive; apply starts_clean_trimStart.
Qed.

Lemma trim_clean (s : jsstring) : clean_ends s -> trim s = s.
Proof.
  intros [Hs He]; unfold trim, trimEnd.
  now rewrite (trimStart_clean _ Hs), (trimStart_clean _ He), rev_involutive.
Qed.

(** Every record the ingestor builds, whatever the row, has a company
    name and a region with no white space at either end, so that
    trimming them again changes nothing. *)
Theorem cleaned_fields_have_clean_ends (r : Row) :
  clean_ends (Company_Name (clean_row r)) /\
  clean_ends (Region (clean_row r)) /\
  trim (Company_Name (clean_row r)) = Company_Name (clean_row r) /\
  trim (Region (clean_row r)) = Region (clean_row r).
Proof.
  assert (H : forall v, clean_ends (trim_field v)).
  { intros [s|]; simpl; [apply clean_ends_trim|now split]. }
  unfold clean_row; simpl.
  repeat split; try apply H; apply trim_clean, H.
Qed.

(** The "Max Results" of a dispatched record is never NaN and never
    zero: it is 20 or the number [parseInt] returned. *)
Theorem max_results_never_falsy (r : Row) :
  truthy_number (Max_Results (clean_row r)) = true /\
  Max_Results (clean_row r) <> NaN /\
  Max_Results (clean_row r) <> Fin 0 /\
  (Max_Results (clean_row r) = Fin 20 \/
   Max_Results (clean_row r) = parseInt (field r "Max Results")).
Proof.
  rewrite max_results_cases.
  destruct (parseInt (field r "Max Results")) as [|sg|n].
  - repeat split; try discriminate; now left.
  - repeat split; try discriminate; now right.
  - destruct (n =? 0)%Z eqn:E.
    + repeat split; try discriminate; now left.
    + apply Z.eqb_neq in E. repeat split; try discriminate.
      * simpl; now apply negb_true_iff, Z.eqb_neq.
      * congruence.
      * now right.
Qed.

Lemma filter_length_all {A : Type} (p : A -> bool) (l : list A) :
  (List.length (filter p l) <= List.length l)%nat /\
  (List.length (filter p l) = List.length l <->
   Forall (fun x => p x = true) l).
Proof.
  induction l as [|x l [IHle IHeq]]; simpl.
  - split; [lia|split; [constructor|reflexivity]].
  - destruct (p x) eqn:E; simpl; split; try lia.
    + split; intros H.
      * constructor; [exact E|apply IHeq; lia].
      * inversion H; subst; f_equal; now apply IHeq.
    + split; intros H; [lia|]. inversion H; congruence.
Qed.

(** The ingestor never yields more records than rows, and yields as
    many exactly when every row passes the filter: a shorter output
    means some row was dropped. *)
Theorem cleaned_length_bound (data : list Row) :
  (List.length (cleanedCompanies data) <= List.length data)%nat /\
  (List.length (cleanedCompanies data) = List.length data <->
   Forall (fun r => valid_row r = true) data).
Proof.
  unfold cleanedCompanies; rewrite length_map.
  apply filter_length_all.
Qed.

(* ================================================================== *)
(** ** Selecting a file *)
(* ================================================================== *)

Lemma skipn_length_app {A : Type} (pre suf : list A) :
  skipn (List.length (pre ++ suf) - List.length suf) (pre ++ suf) = suf.
Proof.
  rewrite length_app, Nat.add_sub.
  induction pre as [|x pre IH]; simpl; [reflexivity|exact IH].
Qed.

(** [endsWith] holds exactly when the string is some stem followed by
    the suffix. *)
Lemma endsWith_spec (s suffix : jsstring) :
  endsWith s suffix = true <-> exists stem, s = stem ++ suffix.
Proof.
  unfold endsWith; rewrite andb_true_iff, eqb_eq, Nat.leb_le; split.
  - intros [_ H].
    exists (firstn (List.length s - List.length suffix) s).
    rewrite <- H at 2. symmetry; apply firstn_skipn.
  - intros [stem ->]; split; [rewrite length_app; lia|].
    apply skipn_length_app.
Qed.

Ltac run_change :=
  cbv [Grouped.handleFileChange Flat.handleFileChange
       Grouped.setFile Grouped.setMessage Grouped.setResults
       Grouped.setProcessingStats Grouped.setGroupedResults Grouped.on_ui
       Flat.setFile Flat.setMessage Flat.setResults
       Flat.setProcessingStats Flat.on_ui
       bind modify ret].

(** A file whose name does not end in ".csv" (in lower case) is refused:
    the handler only shows the error message; the file selected before,
    the results, the statistics and the loading flag stay as they were,
    and nothing is sent. *)
Theorem other_extension_only_sets_error
  (m : Grouped.Machine) (fm : Flat.Machine) (f : File)
  (Hname : ~ exists stem, file_name f = stem ++ lit ".csv") :
  Grouped.handleFileChange (Some f) m =
    (inr tt, grouped_with_message m
               {| text := lit "Please upload a CSV file"; type := error |}) /\
  Flat.handleFileChange (Some f) fm =
    (inr tt, flat_with_message fm
               {| text := lit "Please upload a CSV file"; type := error |}).
Proof.
  assert (E : endsWith (file_name f) (lit ".csv") = false).
  { destruct (endsWith (file_name f) (lit ".csv")) eqn:E; [|reflexivity].
    now apply endsWith_spec in E. }
  run_change; rewrite E; split; reflexivity.
Qed.

Lemma other_extension_only_sets_error_witness :
  Grouped.file (Grouped.ui
    (snd (Grouped.handleFileChange
            (Some {| file_name := lit "LIST.CSV" |}) ready)))
  = Some csv_file.
Proof.
  rewrite (proj1 (other_extension_only_sets_error ready flat_ready
                    {| file_name := lit "LIST.CSV" |}
                    ltac:(intros [stem H];
                          apply (f_equal (fun s => endsWith s (lit ".csv")))
                            in H;
                          rewrite (proj2 (endsWith_spec _ _)
                                     (ex_intro _ stem eq_refl)) in H;
                          discriminate))).
  reflexivity.
Defined.

(** A file whose name ends in ".csv" is accepted: it becomes the
    selected file, the message names it, earlier results, statistics and
    groups are discarded, nothing is sent, and the submit button is
    enabled unless a submission is running. *)
Theorem csv_file_is_selected
  (m : Grouped.Machine) (fm : Flat.Machine) (f : File) (stem : jsstring)
  (Hname : file_name f = stem ++ lit ".csv") :
  (Grouped.handleFileChange (Some f) m = (inr tt, grouped_selected m f) /\
   Grouped.submit_disabled (Grouped.ui (grouped_selected m f))
     = Grouped.isLoading (Grouped.ui m)) /\
  (Flat.handleFileChange (Some f) fm = (inr tt, flat_selected fm f) /\
   Flat.submit_disabled (Flat.ui (flat_selected fm f))
     = Flat.isLoading (Flat.ui fm)).
Proof.
  assert (E : endsWith (file_name f) (lit ".csv") = true)
    by (apply endsWith_spec; now exists stem).
  run_change; rewrite E; cbn.
  unfold Grouped.submit_disabled, Flat.submit_disabled; cbn.
  now rewrite !orb_false_r.
Qed.

Lemma csv_file_is_selected_witness :
  Grouped.file (Grouped.ui
    (snd (Grouped.handleFileChange (Some csv_file) ready))) = Some csv_file.
Proof.
  rewrite (proj1 (proj1 (csv_file_is_selected ready flat_ready csv_file
                           (lit "companies") eq_refl))).
  reflexivity.
Defined.

(* ================================================================== *)
(** ** More on the submit handler *)
(* ================================================================== *)

Lemma or_string_reported (e : JsError) :
  reported e (or_string (Some (err_message e)) (lit "Failed to process file")).
Proof.
  unfold reported, or_string; destruct (err_message e); split; intros H;
    try reflexivity; try discriminate; now elim H.
Qed.

Lemma app_nil_end_eq {A : Type} (l : list A) : l = l ++ [].
Proof. now rewrite app_nil_r. Qed.

Lemma grouped_requests_after (w : World) (f : File) (m : Grouped.Machine) :
  Grouped.file (Grouped.ui m) = Some f ->
  Grouped.requests (snd (Grouped.handleUpload w m))
  = Grouped.requests m ++ sent_by w f.
Proof.
  intros Hfile. unfold sent_by. open_grouped m Hfile.
  destruct (file_text w f) as [csv|e]; cbn; [|apply app_nil_end_eq].
  destruct (cleanedCompanies (Papa_parse_data w csv)) as [|u us]; cbn;
    [apply app_nil_end_eq|].
  destruct (fetch_answer w _) as [response|e]; cbn; [|reflexivity].
  destruct (Http.ok response); cbn; [|reflexivity].
  destruct (Http.json response) as [[|result]|e]; cbn; [reflexivity| |reflexivity].
  destruct (is_success result); cbn; [|reflexivity].
  destruct (Resp.profiles result) as [profs|]; cbn; [|reflexivity].
  destruct (Grouped.group_by_company profs); cbn; reflexivity.
Qed.

Lemma flat_requests_after (w : World) (f : File) (fm : Flat.Machine) :
  Flat.file (Flat.ui fm) = Some f ->
  Flat.requests (snd (Flat.handleUpload w fm))
  = Flat.requests fm ++ sent_by w f.
Proof.
  intros Hflat. unfold sent_by. open_flat fm Hflat.
  destruct (file_text w f) as [csv|e]; cbn; [|apply app_nil_end_eq].
  destruct (cleanedCompanies (Papa_parse_data w csv)) as [|u us]; cbn;
    [apply app_nil_end_eq|].
  destruct (fetch_answer w _) as [response|e]; cbn; [|reflexivity].
  destruct (Http.ok response); cbn; [|reflexivity].
  destruct (Http.json response) as [[|result]|e]; cbn; [reflexivity| |reflexivity].
  destruct (is_success result); cbn; [|reflexivity].
  destruct (Resp.profiles result) as [profs|]; cbn; reflexivity.
Qed.

(** A submission issues at most one request, the same on both pages,
    whatever the webhook answers: none when the file cannot be read or no
    row passes the filter, and otherwise one POST of the cleaned rows, as
    JSON, to the webhook. *)
Theorem at_most_one_request
  (w : World) (f : File) (m : Grouped.Machine) (fm : Flat.Machine)
  (Hfile : Grouped.file (Grouped.ui m) = Some f)
  (Hflat : Flat.file (Flat.ui fm) = Some f) :
  Grouped.requests (grouped_after w m) = Grouped.requests m ++ sent_by w f /\
  Flat.requests (flat_after w fm) = Flat.requests fm ++ sent_by w f /\
  (List.length (sent_by w f) <= 1)%nat /\
  (forall req, In req (sent_by w f) ->
     Http.url req = webhook_url /\ Http.method req = lit "POST" /\
     Http.content_type req = lit "application/json" /\
     Http.body req <> [] /\
     exists csv, file_text w f = Resolved csv /\
                 Http.body req = cleanedCompanies (Papa_parse_data w csv)).
Proof.
  unfold grouped_after, flat_after.
  split; [now apply grouped_requests_after|].
  split; [now apply flat_requests_after|].
  unfold sent_by; split.
  - destruct (file_text w f) as [csv|e]; [|simpl; lia].
    destruct (cleanedCompanies _); simpl; lia.
  - intros req. destruct (file_text w f) as [csv|e]; [|contradiction].
    destruct (cleanedCompanies (Papa_parse_data w csv)) as [|u us] eqn:E;
      [contradiction|].
    intros [<-|[]]. repeat split; try discriminate.
    exists csv; split; [reflexivity|now rewrite E].
Qed.

Lemma at_most_one_request_witness :
  Grouped.requests
    (grouped_after (world [row "Acme" "US"] (answer_of 500 scenario_C_body))
       ready)
  = [webhook_request (cleanedCompanies [row "Acme" "US"])].
Proof.
  rewrite (proj1 (at_most_one_request
                    (world [row "Acme" "US"] (answer_of 500 scenario_C_body))
                    csv_file ready flat_ready eq_refl eq_refl)).
  reflexivity.
Defined.

(** When the selected file cannot be read, both pages report the
    rejection's message, or "Failed to process file" when it has none,
    and nothing is sent. *)
Theorem unreadable_file_is_reported
  (w : World) (f : File) (m : Grouped.Machine) (fm : Flat.Machine)
  (e : JsError)
  (Hfile : Grouped.file (Grouped.ui m) = Some f)
  (Hflat : Flat.file (Flat.ui fm) = Some f)
  (Hread : file_text w f = Rejected e) :
  exists t, reported e t /\
    error_shown (Grouped.message (Grouped.ui (grouped_after w m))) t /\
    Grouped.requests (grouped_after w m) = Grouped.requests m /\
    error_shown (Flat.message (Flat.ui (flat_after w fm))) t /\
    Flat.requests (flat_after w fm) = Flat.requests fm.
Proof.
  eexists; split; [apply or_string_reported|].
  unfold grouped_after, flat_after, error_shown. repeat split.
  - open_grouped m Hfile; now rewrite Hread.
  - open_grouped m Hfile; now rewrite Hread.
  - open_flat fm Hflat; now rewrite Hread.
  - open_flat fm Hflat; now rewrite Hread.
Qed.

Lemma unreadable_file_is_reported_witness :
  error_shown
    (Grouped.message (Grouped.ui (grouped_after unreadable_world ready)))
    (lit "NotReadableError").
Proof.
  destruct (unreadable_file_is_reported unreadable_world csv_file ready
              flat_ready (mkError (lit "NotReadableError"))
              eq_refl eq_refl eq_refl)
    as (t & [Ht _] & Hshown & _).
  rewrite (Ht ltac:(discriminate)) in Hshown. exact Hshown.
Defined.

(** When the request is rejected (the network fails), or a 2xx response
    cannot be decoded as JSON, both pages report the rejection's message,
    or "Failed to process file" when it has none; the one request has
    gone out. *)
Theorem failed_exchange_is_reported
  (w : World) (f : File) (m : Grouped.Machine) (fm : Flat.Machine)
  (csv : jsstring) (e : JsError)
  (Hfile : Grouped.file (Grouped.ui m) = Some f)
  (Hflat : Flat.file (Flat.ui fm) = Some f)
  (Htext : file_text w f = Resolved csv)
  (Hrows : cleanedCompanies (Papa_parse_data w csv) <> [])
  (Hfail :
     fetch_answer w
       (webhook_request (cleanedCompanies (Papa_parse_data w csv)))
       = Rejected e \/
     exists response,
       fetch_answer w
         (webhook_request (cleanedCompanies (Papa_parse_data w csv)))
         = Resolved response /\
       Http.ok response = true /\ Http.json response = Rejected e) :
  exists t, reported e t /\
    error_shown (Grouped.message (Grouped.ui (grouped_after w m))) t /\
    Grouped.results (Grouped.ui (grouped_after w m)) = [] /\
    error_shown (Flat.message (Flat.ui (flat_after w fm))) t /\
    Flat.results (Flat.ui (flat_after w fm)) = [].
Proof.
  eexists; split; [apply or_string_reported|].
  unfold grouped_after, flat_after, error_shown.
  destruct Hfail as [Hrej|(response & Hres & Hok & Hjson)]; repeat split.
  1,2: open_grouped m Hfile; rewrite Htext; cbn;
       rewrite (length_eqb_0 _ Hrows); cbn; now rewrite Hrej.
  1,2: open_flat fm Hflat; rewrite Htext; cbn;
       rewrite (length_eqb_0 _ Hrows); cbn; now rewrite Hrej.
  1,2: open_grouped m Hfile; rewrite Htext; cbn;
       rewrite (length_eqb_0 _ Hrows); cbn; rewrite Hres; cbn;
       rewrite Hok; cbn; now rewrite Hjson.
  1,2: open_flat fm Hflat; rewrite Htext; cbn;
       rewrite (length_eqb_0 _ Hrows); cbn; rewrite Hres; cbn;
       rewrite Hok; cbn; now rewrite Hjson.
Qed.

Lemma failed_exchange_is_reported_witness :
  error_shown
    (Grouped.message (Grouped.ui
       (grouped_after
          (world [row "Acme" "US"] (Rejected (mkError (lit "Failed to fetch"))))
          ready)))
    (lit "Failed to fetch").
Proof.
  destruct (failed_exchange_is_reported
              (world [row "Acme" "US"]
                 (Rejected (mkError (lit "Failed to fetch"))))
              csv_file ready flat_ready [] (mkError (lit "Failed to fetch"))
              eq_refl eq_refl eq_refl ltac:(discriminate)
              (or_introl eq_refl))
    as (t & [Ht _] & Hshown & _).
  rewrite (Ht ltac:(discriminate)) in Hshown. exact Hshown.
Defined.

(* ================================================================== *)
(** ** More on grouping: when it throws, and what the groups hold *)
(* ================================================================== *)

Lemma eqb_sym (a b : jsstring) : Js.eqb a b = Js.eqb b a.
Proof.
  destruct (Js.eqb a b) eqn:E, (Js.eqb b a) eqn:E'; try reflexivity.
  - apply eqb_eq in E; subst; now rewrite eqb_refl in E'.
  - apply eqb_eq in E'; subst; now rewrite eqb_refl in E.
Qed.

Lemma keys_set {A : Type} (o : Obj.t A) (k k' : jsstring) (v : A) :
  In k' (map fst (Obj.set o k v)) -> k' = k \/ In k' (map fst o).
Proof.
  induction o as [|[k0 v0] o IH]; simpl.
  - intros [<-|[]]; now left.
  - destruct (Js.eqb k0 k); simpl; intros [<-|H]; auto.
    destruct (IH H); auto.
Qed.

Lemma insert_by_index_perm {A : Type} (e : Z * (jsstring * A))
  (l : list (Z * (jsstring * A))) :
  Permutation (Obj.insert_by_index e l) (e :: l).
Proof.
  induction l as [|x l IH]; simpl; [reflexivity|].
  destruct (fst e <? fst x)%Z; [reflexivity|].
  rewrite IH; apply perm_swap.
Qed.

(** [Object.entries] lists every own property once. *)
Lemma entries_perm {A : Type} (o : Obj.t A) : Permutation (Obj.entries o) o.
Proof.
  unfold Obj.entries.
  induction o as [|[k v] o IH]; simpl; [reflexivity|].
  destruct (Obj.split_keys o) as [ix rest].
  destruct (Obj.array_index k) as [n|]; simpl.
  - rewrite insert_by_index_perm; simpl. now constructor.
  - rewrite <- Permutation_middle. now constructor.
Qed.

Lemma members_of_absent (k : jsstring) (profiles : list ProfileResult) :
  ~ In k (map Grouped.companyKey profiles) -> members_of k profiles = [].
Proof.
  unfold members_of; induction profiles as [|p l IH]; simpl; [reflexivity|].
  intros H. destruct (Js.eqb (Grouped.companyKey p) k) eqn:E.
  - apply eqb_eq in E; elim H; now left.
  - apply IH; tauto.
Qed.

Lemma members_of_present (k : jsstring) (profiles : list ProfileResult) :
  In k (map Grouped.companyKey profiles) -> members_of k profiles <> [].
Proof.
  unfold members_of; induction profiles as [|p l IH]; simpl; [tauto|].
  intros [<-|H]; [now rewrite eqb_refl|].
  destruct (Js.eqb (Grouped.companyKey p) k); [discriminate|now apply IH].
Qed.

Lemma sum_without (c : jsstring -> nat) (k : jsstring) (l : list jsstring) :
  NoDup l -> (~ In k l -> c k = 0%nat) ->
  (c k + list_sum (map c (filter (fun x => negb (Js.eqb x k)) l)))%nat
  = list_sum (map c l).
Proof.
  induction 1 as [|x l Hx Hl IH]; simpl; intros Hk; [rewrite Hk; tauto|].
  destruct (Js.eqb x k) eqn:E; simpl.
  - apply eqb_eq in E; subst x. f_equal. f_equal.
    clear IH Hk Hl. induction l as [|y l IHl]; simpl; [reflexivity|].
    destruct (Js.eqb y k) eqn:Ey.
    + apply eqb_eq in Ey; subst y; elim Hx; now left.
    + simpl; f_equal; apply IHl; intros H; apply Hx; now right.
  - apply eqb_neq in E. rewrite <- IH; [lia|].
    intros H; apply Hk; intros [H'|H']; [congruence|tauto].
Qed.

Lemma groups_of_rows (profiles : list ProfileResult) :
  list_sum (map (fun kv => List.length (snd kv)) (groups_of profiles))
  = List.length profiles.
Proof.
  unfold groups_of; rewrite map_map; simpl.
  induction profiles as [|p l IH]; simpl; [reflexivity|].
  set (k := Grouped.companyKey p).
  unfold members_of at 1; simpl; fold k; rewrite eqb_refl; simpl.
  f_equal. fold (members_of k l).
  rewrite <- IH.
  rewrite <- (sum_without (fun x => List.length (members_of x l)) k
                (first_seen (map Grouped.companyKey l))
                (first_seen_NoDup _)).
  - do 2 f_equal. apply map_ext_in; intros x Hx.
    apply filter_In in Hx as [_ Hx]. apply negb_true_iff in Hx.
    now rewrite (eqb_sym k x), Hx.
  - intros H. rewrite members_of_absent; [reflexivity|].
    intros H'; apply H; now apply first_seen_In.
Qed.

Lemma group_profile_inherited (g : Obj.t (list ProfileResult))
  (p : ProfileResult) :
  Obj.inherited (Grouped.companyKey p) = true ->
  Obj.own_get g (Grouped.companyKey p) = None ->
  Grouped.group_profile g p = inl Grouped.push_is_not_a_function.
Proof.
  intros Hinh Hown. unfold Grouped.group_profile, Obj.get; cbv zeta.
  rewrite Hown, Hinh; cbv beta iota. now rewrite Hown.
Qed.

Lemma forEach_group_throws (profiles : list ProfileResult) :
  Exists (fun p => Obj.inherited (Grouped.companyKey p) = true) profiles ->
  forall g : Obj.t (list ProfileResult),
    Forall (fun k => Obj.inherited k = false) (map fst g) ->
    Grouped.forEach_group g profiles = inl Grouped.push_is_not_a_function.
Proof.
  induction profiles as [|p l IH]; intros Hex g Hg; [inversion Hex|].
  simpl. destruct (Obj.inherited (Grouped.companyKey p)) eqn:Hp.
  - rewrite group_profile_inherited; [reflexivity|exact Hp|].
    apply own_get_None; intros Hin.
    rewrite Forall_forall in Hg. apply Hg in Hin; congruence.
  - rewrite (group_profile_ordinary g p Hp). apply IH.
    + inversion Hex; subst; [congruence|assumption].
    + apply Forall_forall; intros k Hk. apply keys_set in Hk as [->|Hk];
        [exact Hp|]. rewrite Forall_forall in Hg; now apply Hg.
Qed.

Lemma grouping_creation_order (profiles : list ProfileResult) :
  Forall (fun p => Obj.inherited (Grouped.companyKey p) = false) profiles ->
  Grouped.group_by_company profiles = inr (groups_of profiles).
Proof.
  intros Hinh.
  destruct (forEach_group_ordinary profiles Hinh Obj.empty)
    as (g & Hrun & Hkeys & Hget).
  simpl in Hkeys; rewrite filter_unseen_nil in Hkeys.
  unfold Grouped.group_by_company; rewrite Hrun; f_equal.
  assert (Hnd : NoDup (map fst g)) by (rewrite Hkeys; apply first_seen_NoDup).
  unfold groups_of; rewrite <- Hkeys, map_map.
  rewrite <- (map_id g) at 1.
  apply map_ext_in; intros [k members] Hin; simpl; f_equal.
  pose proof (own_get_In g k members Hnd Hin) as Hown.
  rewrite Hget in Hown; simpl in Hown.
  destruct (members_of k profiles); [discriminate|congruence].
Qed.

Lemma inherited_split (profiles : list ProfileResult) :
  Forall (fun p => Obj.inherited (Grouped.companyKey p) = false) profiles \/
  Exists (fun p => Obj.inherited (Grouped.companyKey p) = true) profiles.
Proof.
  induction profiles as [|p l [IH|IH]]; [left; constructor| |right; now right].
  destruct (Obj.inherited (Grouped.companyKey p)) eqn:E;
    [right; now left|left; now constructor].
Qed.

Lemma list_sum_perm (a b : list nat) :
  Permutation a b -> list_sum a = list_sum b.
Proof. induction 1; simpl; lia. Qed.

(** Grouping throws exactly when some profile's key is a property name
    inherited from [Object.prototype], always with the same TypeError;
    otherwise it returns one group per distinct key, created in
    first-seen order. *)
Theorem grouping_throws_on_inherited_names (profiles : list ProfileResult) :
  (Grouped.group_by_company profiles = inl Grouped.push_is_not_a_function <->
   Exists (fun p => Obj.inherited (Grouped.companyKey p) = true) profiles) /\
  (Grouped.group_by_company profiles = inr (groups_of profiles) <->
   Forall (fun p => Obj.inherited (Grouped.companyKey p) = false) profiles) /\
  (forall e, Grouped.group_by_company profiles = inl e ->
             e = Grouped.push_is_not_a_function).
Proof.
  destruct (inherited_split profiles) as [Hall|Hex].
  - pose proof (grouping_creation_order profiles Hall) as Hrun.
    rewrite Hrun; repeat split; try discriminate; try tauto.
    intros Hex; exfalso. apply Exists_exists in Hex as (p & Hin & Hp).
    rewrite Forall_forall in Hall; apply Hall in Hin; congruence.
  - pose proof (forEach_group_throws profiles Hex Obj.empty
                  ltac:(constructor)) as Hrun.
    unfold Grouped.group_by_company; rewrite Hrun.
    repeat split; try discriminate; try tauto; [|congruence].
    intros Hall; exfalso. apply Exists_exists in Hex as (p & Hin & Hp).
    rewrite Forall_forall in Hall; apply Hall in Hin; congruence.
Qed.

(** Whenever grouping returns, array-index names or not, the groups
    shown partition the profiles: each group holds exactly the profiles
    with its key, in arrival order, and is not empty; every profile is in
    the group of its key; the table rows over all groups number as many
    as the profiles; and no group is shown only for an empty list. *)
Theorem groups_partition_profiles (profiles : list ProfileResult)
  (grouped : Obj.t (list ProfileResult))
  (Hrun : Grouped.group_by_company profiles = inr grouped) :
  Permutation (Obj.entries grouped) (groups_of profiles) /\
  (forall k members, In (k, members) (Obj.entries grouped) ->
     members = members_of k profiles /\ members <> []) /\
  (forall p, In p profiles ->
     exists members,
       In (Grouped.companyKey p, members) (Obj.entries grouped) /\
       In p members) /\
  shown_rows grouped = List.length profiles /\
  (Obj.entries grouped = [] <-> profiles = []).
Proof.
  assert (Hg : grouped = groups_of profiles).
  { destruct (inherited_split profiles) as [Hall|Hex].
    - rewrite (grouping_creation_order profiles Hall) in Hrun; congruence.
    - unfold Grouped.group_by_company in Hrun.
      rewrite (forEach_group_throws profiles Hex Obj.empty
                 ltac:(constructor)) in Hrun; discriminate. }
  subst grouped; clear Hrun.
  pose proof (entries_perm (groups_of profiles)) as Hperm.
  split; [exact Hperm|]. split; [|split; [|split]].
  - intros k members Hin. apply (Permutation_in _ Hperm) in Hin.
    unfold groups_of in Hin. apply in_map_iff in Hin as (k' & [= <- <-] & Hk).
    split; [reflexivity|]. apply members_of_present.
    now apply first_seen_In.
  - intros p Hp. exists (members_of (Grouped.companyKey p) profiles); split.
    + apply (Permutation_in _ (Permutation_sym Hperm)).
      unfold groups_of; apply in_map_iff.
      exists (Grouped.companyKey p); split; [reflexivity|].
      apply first_seen_In; now apply in_map.
    + unfold members_of; apply filter_In; split; [exact Hp|apply eqb_refl].
  - unfold shown_rows. rewrite <- groups_of_rows.
    apply list_sum_perm, Permutation_map, Hperm.
  - split; intros H.
    + rewrite H in Hperm. apply Permutation_nil in Hperm.
      destruct profiles; [reflexivity|discriminate].
    + subst profiles; reflexivity.
Qed.

Lemma groups_partition_profiles_witness :
  shown_rows
    [(lit "1688", [profile_of (Some (lit "1688"))]);
     (lit "Beta", [profile_of (Some (lit "Beta"))])] = 2%nat.
Proof.
  exact (proj1 (proj2 (proj2 (proj2
           (groups_partition_profiles
              [profile_of (Some (lit "1688")); profile_of (Some (lit "Beta"))]
              _ eq_refl))))).
Defined.

(** A profile of a company named like a property of [Object.prototype]
    makes the grouped page fail a submission the server answered with
    success: it shows the TypeError's message and no result, while the
    flat page shows every profile of the same response. *)
Theorem inherited_name_fails_grouped_page_only
  (w : World) (f : File) (m : Grouped.Machine) (fm : Flat.Machine)
  (csv : jsstring) (response : Http.Response) (result : ProcessingResponse)
  (profs : list ProfileResult)
  (Hfile : Grouped.file (Grouped.ui m) = Some f)
  (Hflat : Flat.file (Flat.ui fm) = Some f)
  (Htext : file_text w f = Resolved csv)
  (Hrows : cleanedCompanies (Papa_parse_data w csv) <> [])
  (Hfetch : fetch_answer w
              (webhook_request (cleanedCompanies (Papa_parse_data w csv)))
            = Resolved response)
  (Hok : Http.ok response = true)
  (Hjson : Http.json response = Resolved (Http.BodyObject result))
  (Hstatus : Resp.status result = Some (lit "success"))
  (Hprofiles : Resp.profiles result = Some profs)
  (Hname : Exists (fun p => Obj.inherited (Grouped.companyKey p) = true)
             profs) :
  (error_shown (Grouped.message (Grouped.ui (grouped_after w m)))
     (err_message Grouped.push_is_not_a_function) /\
   Grouped.results (Grouped.ui (grouped_after w m)) = [] /\
   Grouped.group_entries (Grouped.ui (grouped_after w m)) = [] /\
   Grouped.processingStats (Grouped.ui (grouped_after w m)) = None) /\
  (Flat.results (Flat.ui (flat_after w fm)) = profs /\
   exists t, Flat.message (Flat.ui (flat_after w fm))
             = Some {| text := t; type := success |}).
Proof.
  apply is_success_true in Hstatus.
  pose proof (forEach_group_throws profs Hname Obj.empty ltac:(constructor))
    as Hthrow.
  fold (Grouped.group_by_company profs) in Hthrow.
  unfold grouped_after, flat_after, error_shown; split.
  - open_grouped m Hfile.
    rewrite Htext; cbn. rewrite (length_eqb_0 _ Hrows); cbn.
    rewrite Hfetch; cbn. rewrite Hok; cbn. rewrite Hjson; cbn.
    rewrite Hstatus, Hprofiles; cbn. rewrite Hthrow; cbn.
    now repeat split.
  - open_flat fm Hflat.
    rewrite Htext; cbn. rewrite (length_eqb_0 _ Hrows); cbn.
    rewrite Hfetch; cbn. rewrite Hok; cbn. rewrite Hjson; cbn.
    rewrite Hstatus, Hprofiles; cbn. split; [reflexivity|now eexists].
Qed.

Lemma inherited_name_fails_grouped_page_only_witness :
  Grouped.results (Grouped.ui
    (grouped_after (world [row "Acme" "US"] (answer_of 200 constructor_body))
       ready)) = [] /\
  Flat.results (Flat.ui
    (flat_after (world [row "Acme" "US"] (answer_of 200 constructor_body))
       flat_ready)) = prototype_name_sample.
Proof.
  destruct (inherited_name_fails_grouped_page_only
              (world [row "Acme" "US"] (answer_of 200 constructor_body))
              csv_file ready flat_ready [] _ constructor_body
              prototype_name_sample
              eq_refl eq_refl eq_refl ltac:(discriminate) eq_refl eq_refl
              eq_refl eq_refl eq_refl ltac:(left; reflexivity))
    as [(_ & Hg & _) (Hf & _)].
  split; [exact Hg|exact Hf].
Defined.

Lemma grouping_returns (profiles : list ProfileResult)
  (grouped : Obj.t (list ProfileResult)) :
  Grouped.group_by_company profiles = inr grouped ->
  grouped = groups_of profiles.
Proof.
  intros Hrun. destruct (inherited_split profiles) as [Hall|Hex].
  - rewrite (grouping_creation_order profiles Hall) in Hrun; congruence.
  - unfold Grouped.group_by_company in Hrun.
    rewrite (forEach_group_throws profiles Hex Obj.empty
               ltac:(constructor)) in Hrun; discriminate.
Qed.

(** A submission ends in one of two ways, never with the "Processing"
    notice still shown. Either an error message is shown and the page
    holds no results, no statistics and no groups, whatever it held
    before; or a success message is shown and the results are exactly the
    profiles of a 2xx response to this submission's request whose body
    says "success". *)
Theorem submission_outcome
  (w : World) (f : File) (m : Grouped.Machine) (fm : Flat.Machine)
  (Hfile : Grouped.file (Grouped.ui m) = Some f)
  (Hflat : Flat.file (Flat.ui fm) = Some f) :
  (exists msg,
     Grouped.message (Grouped.ui (grouped_after w m)) = Some msg /\
     ((type msg = error /\
       Grouped.results (Grouped.ui (grouped_after w m)) = [] /\
       Grouped.processingStats (Grouped.ui (grouped_after w m)) = None /\
       Grouped.groupedResults (Grouped.ui (grouped_after w m)) = Obj.empty)
      \/
      (type msg = success /\
       exists result profs,
         answered_with w f result profs /\
         Grouped.results (Grouped.ui (grouped_after w m)) = profs /\
         Grouped.groupedResults (Grouped.ui (grouped_after w m))
           = groups_of profs /\
         Grouped.processingStats (Grouped.ui (grouped_after w m)) <> None)))
  /\
  (exists msg,
     Flat.message (Flat.ui (flat_after w fm)) = Some msg /\
     ((type msg = error /\
       Flat.results (Flat.ui (flat_after w fm)) = [] /\
       Flat.processingStats (Flat.ui (flat_after w fm)) = None)
      \/
      (type msg = success /\
       exists result profs,
         answered_with w f result profs /\
         Flat.results (Flat.ui (flat_after w fm)) = profs /\
         Flat.processingStats (Flat.ui (flat_after w fm)) <> None))).
Proof.
  unfold grouped_after, flat_after, answered_with; split.
  - open_grouped m Hfile.
    destruct (file_text w f) as [csv|e] eqn:Ht; cbn;
      [|eexists; split; [reflexivity|left; now repeat split]].
    destruct (List.length _ =? 0); cbn;
      [eexists; split; [reflexivity|left; now repeat split]|].
    destruct (fetch_answer w _) as [response|e] eqn:Hf; cbn;
      [|eexists; split; [reflexivity|left; now repeat split]].
    destruct (Http.ok response) eqn:Hok; cbn;
      [|eexists; split; [reflexivity|left; now repeat split]].
    destruct (Http.json response) as [[|result]|e] eqn:Hj; cbn;
      [eexists; split; [reflexivity|left; now repeat split]| |eexists; split; [reflexivity|left; now repeat split]].
    destruct (is_success result) eqn:Hs; cbn;
      [|eexists; split; [reflexivity|left; now repeat split]].
    destruct (Resp.profiles result) as [profs|] eqn:Hp; cbn;
      [|eexists; split; [reflexivity|left; now repeat split]].
    destruct (Grouped.group_by_company profs) as [e|g] eqn:Hg; cbn;
      [eexists; split; [reflexivity|left; now repeat split]|].
    eexists; split; [reflexivity|right; split; [reflexivity|]].
    exists result, profs; split; [|split; [reflexivity|split]].
    + exists csv, response; repeat split; try assumption.
      now apply is_success_true.
    + now apply grouping_returns.
    + discriminate.
  - open_flat fm Hflat.
    destruct (file_text w f) as [csv|e] eqn:Ht; cbn;
      [|eexists; split; [reflexivity|left; now repeat split]].
    destruct (List.length _ =? 0); cbn;
      [eexists; split; [reflexivity|left; now repeat split]|].
    destruct (fetch_answer w _) as [response|e] eqn:Hf; cbn;
      [|eexists; split; [reflexivity|left; now repeat split]].
    destruct (Http.ok response) eqn:Hok; cbn;
      [|eexists; split; [reflexivity|left; now repeat split]].
    destruct (Http.json response) as [[|result]|e] eqn:Hj; cbn;
      [eexists; split; [reflexivity|left; now repeat split]| |eexists; split; [reflexivity|left; now repeat split]].
    destruct (is_success result) eqn:Hs; cbn;
      [|eexists; split; [reflexivity|left; now repeat split]].
    destruct (Resp.profiles result) as [profs|] eqn:Hp; cbn;
      [|eexists; split; [reflexivity|left; now repeat split]].
    eexists; split; [reflexivity|right; split; [reflexivity|]].
    exists result, profs; split; [|split; [reflexivity|discriminate]].
    exists csv, response; repeat split; try assumption.
    now apply is_success_true.
Qed.

Lemma submission_outcome_witness :
  exists msg,
    Grouped.message (Grouped.ui
      (grouped_after (world [row "Acme" "US"] (answer_of 200 counted_body))
         ready)) = Some msg /\
    type msg = success.
Proof.
  destruct (submission_outcome
              (world [row "Acme" "US"] (answer_of 200 counted_body))
              csv_file ready flat_ready eq_refl eq_refl)
    as [(msg & Hmsg & Hcase) _].
  exists msg; split; [exact Hmsg|].
  destruct Hcase as [(_ & Hres & _)|(Ht & _)]; [discriminate Hres|exact Ht].
Defined.

(* ================================================================== *)
(** ** The page over its whole life *)
(* ================================================================== *)

Lemma grouped_inv_upload (w : World) (m : Grouped.Machine) :
  grouped_inv (Grouped.ui m) ->
  grouped_inv (Grouped.ui (snd (Grouped.handleUpload w m))).
Proof.
  intros Hinv. destruct (Grouped.file (Grouped.ui m)) as [f|] eqn:Hfile;
    [|now rewrite grouped_no_file].
  clear Hinv. unfold grouped_inv. open_grouped m Hfile.
  destruct (file_text w f) as [csv|e]; cbn; [|now repeat split].
  destruct (List.length _ =? 0); cbn; [now repeat split|].
  destruct (fetch_answer w _) as [response|e]; cbn; [|now repeat split].
  destruct (Http.ok response); cbn; [|now repeat split].
  destruct (Http.json response) as [[|result]|e]; cbn; [now repeat split| |now repeat split].
  destruct (is_success result); cbn; [|now repeat split].
  destruct (Resp.profiles result) as [profs|]; cbn; [|now repeat split].
  destruct (Grouped.group_by_company profs) as [e|g] eqn:Hg; cbn;
    [now repeat split|].
  repeat split; [now apply grouping_returns|discriminate].
Qed.

Lemma grouped_inv_change (m : Grouped.Machine) (selected : option File) :
  grouped_inv (Grouped.ui m) ->
  grouped_inv (Grouped.ui (snd (Grouped.handleFileChange selected m))).
Proof.
  intros (Hl & Hg & Hs). destruct selected as [f|]; [|now repeat split].
  unfold grouped_inv; run_change.
  destruct (endsWith (file_name f) (lit ".csv")); cbn; now repeat split.
Qed.

Lemma grouped_reachable_inv (m : Grouped.Machine) :
  grouped_reachable m -> grouped_inv (Grouped.ui m).
Proof.
  induction 1 as [input|m value selected _ IH|m w _ IH].
  - now repeat split.
  - now apply grouped_inv_change.
  - now apply grouped_inv_upload.
Qed.

Lemma keys_length {A : Type} (o : Obj.t A) :
  List.length (Obj.keys o) = List.length o.
Proof.
  unfold Obj.keys; rewrite length_map.
  apply Permutation_length, entries_perm.
Qed.

Lemma groups_of_nil (profiles : list ProfileResult) :
  groups_of profiles = [] <-> profiles = [].
Proof.
  split; [|now intros ->]. destruct profiles; [reflexivity|discriminate].
Qed.

(** Between two events, each handler having run to its end, the state
    of the grouped page is at rest and consistent: it is not loading; the
    groups it holds are those of the results it holds, so the rows over
    all groups number as many as the results; the guard of the results
    block, which holds the download button, is true exactly when there
    are results, which is exactly when [downloadResults] would hand over
    a file; results never come without the statistics; and whenever
    there are results the JSX builds [<FiBuilding>] elements. *)
Theorem grouped_page_is_consistent (m : Grouped.Machine)
  (Hreach : grouped_reachable m) :
  Grouped.isLoading (Grouped.ui m) = false /\
  Grouped.groupedResults (Grouped.ui m)
    = groups_of (Grouped.results (Grouped.ui m)) /\
  shown_rows (Grouped.groupedResults (Grouped.ui m))
    = List.length (Grouped.results (Grouped.ui m)) /\
  (Grouped.results_block_guard (Grouped.ui m) = true <->
   Grouped.results (Grouped.ui m) <> []) /\
  (forall x, Grouped.results_block_guard (Grouped.ui m) = true <->
             Grouped.downloadResults x (Grouped.ui m) <> None) /\
  (Grouped.results (Grouped.ui m) <> [] ->
   Grouped.processingStats (Grouped.ui m) <> None) /\
  (Grouped.results (Grouped.ui m) <> [] ->
   Grouped.builds_FiBuilding (Grouped.ui m) = true).
Proof.
  destruct (grouped_reachable_inv m Hreach) as (Hl & Hg & Hs).
  assert (Hshown : Grouped.results_block_guard (Grouped.ui m) = true <->
                   Grouped.results (Grouped.ui m) <> []).
  { unfold Grouped.results_block_guard. rewrite keys_length, Hg.
    rewrite negb_true_iff, Nat.eqb_neq, <- groups_of_nil.
    destruct (groups_of _); simpl; split; congruence || discriminate. }
  split; [exact Hl|]. split; [exact Hg|].
  split; [|split; [exact Hshown|split; [|split; [exact Hs|]]]].
  - rewrite Hg. unfold shown_rows. rewrite <- groups_of_rows.
    apply list_sum_perm, Permutation_map, entries_perm.
  - intros x. rewrite Hshown. unfold Grouped.downloadResults.
    destruct (Grouped.results (Grouped.ui m)); split; congruence || discriminate.
  - intros Hres. apply Hshown in Hres. unfold Grouped.builds_FiBuilding.
    rewrite Hres. apply orb_true_r.
Qed.

Lemma grouped_page_is_consistent_witness :
  Grouped.results_block_guard (Grouped.ui
    (snd (Grouped.handleUpload
            (world [row "Acme" "US"] (answer_of 200 counted_body))
            (snd (Grouped.handleFileChange (Some csv_file)
                    (grouped_with_input (grouped_initial (Some []))
                       (Some (lit "companies.csv")))))))) = true.
Proof.
  apply (proj1 (proj2 (proj2 (proj2
           (grouped_page_is_consistent _
              (reach_submit _
                 (world [row "Acme" "US"] (answer_of 200 counted_body))
                 (reach_change _ (Some (lit "companies.csv"))
                    (Some csv_file) (reach_initial (Some []))))))))).
  discriminate.
Defined.



(* ================================================================== *)
(** ** Decimal numerals through [parseInt] *)
(* ================================================================== *)

Lemma lit_String (c : ascii) (s : string) :
  lit (String c s) = N_of_ascii c :: lit s.
Proof. reflexivity. Qed.

Lemma digit_cases (c : N) :
  is_digit c = true ->
  (c = 48 \/ c = 49 \/ c = 50 \/ c = 51 \/ c = 52 \/
   c = 53 \/ c = 54 \/ c = 55 \/ c = 56 \/ c = 57)%N.
Proof.
  unfold is_digit; rewrite andb_true_iff, !N.leb_le; lia.
Qed.

Lemma numeral_digits (d : Decimal.uint) : forallb is_digit (numeral d) = true.
Proof.
  unfold numeral; induction d; simpl; rewrite ?lit_String; simpl;
    try reflexivity; exact IHd.
Qed.

Lemma parse_numeral (d : Decimal.uint) (acc : Z) :
  parse_digits 10 (numeral d) true acc = Some (uint_value acc d).
Proof.
  unfold numeral; revert acc; induction d; intros acc; simpl;
    rewrite ?lit_String; try reflexivity; simpl; apply IHd.
Qed.

Lemma parse_numeral_start (d : Decimal.uint) :
  d <> Decimal.Nil ->
  parse_digits 10 (numeral d) false 0 = Some (uint_value 0 d).
Proof.
  intros Hd; destruct d; [now elim Hd| ..]; unfold numeral; simpl;
    apply (parse_numeral d).
Qed.

Lemma of_uint_acc_value (d : Decimal.uint) (acc : positive) :
  Z.pos (Pos.of_uint_acc d acc) = uint_value (Z.pos acc) d.
Proof.
  revert acc; induction d; intros acc; cbn [Pos.of_uint_acc uint_value];
    [reflexivity| ..]; rewrite IHd; f_equal; lia.
Qed.

Lemma of_uint_value (d : Decimal.uint) :
  Z.of_N (Pos.of_uint d) = uint_value 0 d.
Proof.
  induction d; cbn [Pos.of_uint uint_value Z.of_N];
    [reflexivity|exact IHd| ..]; apply of_uint_acc_value.
Qed.

Lemma to_uint_value (p : positive) :
  Pos.to_uint p <> Decimal.Nil /\ uint_value 0 (Pos.to_uint p) = Z.pos p.
Proof.
  pose proof (DecimalPos.Unsigned.of_to p) as H.
  split; [intros E; rewrite E in H; discriminate|].
  now rewrite <- of_uint_value, H.
Qed.

(** On a string of decimal digits [parseInt] skips nothing and reads
    the whole string in radix 10. *)
Lemma parseInt_of_digits (s : jsstring) :
  s <> [] -> forallb is_digit s = true ->
  parseInt_string s =
  match parse_digits 10 s false 0 with
  | Some v => round_to_double (1 * v)
  | None => NaN
  end.
Proof.
  destruct s as [|c r]; [now intros H; elim H|]. intros _ H.
  simpl in H; apply andb_true_iff in H as [Hc Hr].
  apply digit_cases in Hc. destruct r as [|c2 r2].
  - repeat (destruct Hc as [->|Hc]; [reflexivity|]); subst; reflexivity.
  - simpl in Hr; apply andb_true_iff in Hr as [Hc2 _].
    apply digit_cases in Hc2.
    repeat (destruct Hc as [->|Hc];
            [repeat (destruct Hc2 as [->|Hc2]; [reflexivity|]);
             subst; reflexivity|]).
    subst; repeat (destruct Hc2 as [->|Hc2]; [reflexivity|]).
    subst; reflexivity.
Qed.

Lemma parseInt_of_minus_digits (s : jsstring) :
  s <> [] -> forallb is_digit s = true ->
  parseInt_string (45%N :: s) =
  match parse_digits 10 s false 0 with
  | Some v => round_to_double (-1 * v)
  | None => NaN
  end.
Proof.
  destruct s as [|c r]; [now intros H; elim H|]. intros _ H.
  simpl in H; apply andb_true_iff in H as [Hc Hr].
  apply digit_cases in Hc. destruct r as [|c2 r2].
  - repeat (destruct Hc as [->|Hc]; [reflexivity|]); subst; reflexivity.
  - simpl in Hr; apply andb_true_iff in Hr as [Hc2 _].
    apply digit_cases in Hc2.
    repeat (destruct Hc as [->|Hc];
            [repeat (destruct Hc2 as [->|Hc2]; [reflexivity|]);
             subst; reflexivity|]).
    subst; repeat (destruct Hc2 as [->|Hc2]; [reflexivity|]).
    subst; reflexivity.
Qed.

Lemma numeral_nonempty (d : Decimal.uint) :
  d <> Decimal.Nil ->
  numeral d <> [] /\ lit (NilZero.string_of_uint d) = numeral d.
Proof.
  intros Hd; destruct d; [now elim Hd| ..]; split;
    try reflexivity; unfold numeral; simpl; rewrite lit_String; discriminate.
Qed.

Lemma round_safe (z : Z) : (Z.abs z < 2 ^ 53)%Z -> round_to_double z = Fin z.
Proof.
  intros H; unfold round_to_double.
  now rewrite (proj2 (Z.ltb_lt _ _) H).
Qed.

Lemma parseInt_decimal (z : Z) :
  (Z.abs z < 2 ^ 53)%Z -> parseInt (Some (decimal z)) = Fin z.
Proof.
  intros Hz; unfold parseInt, decimal.
  destruct z as [|p|p]; [reflexivity| |];
    destruct (to_uint_value p) as [Hnil Hval];
    destruct (numeral_nonempty _ Hnil) as [Hne Hlit];
    cbn [Z.to_int NilZero.string_of_int].
  - rewrite Hlit, (parseInt_of_digits _ Hne (numeral_digits _)).
    rewrite (parse_numeral_start _ Hnil), Hval.
    now apply round_safe.
  - rewrite lit_String, Hlit.
    change (N_of_ascii "-") with 45%N.
    rewrite (parseInt_of_minus_digits _ Hne (numeral_digits _)).
    rewrite (parse_numeral_start _ Hnil), Hval.
    now apply round_safe.
Qed.

(** A "Max Results" cell that holds the plain decimal numeral of an
    integer of magnitude below 2^53 is read back as that integer: the
    record carries it unchanged, except that 0 becomes the default 20. *)
Theorem decimal_max_results_round_trip (r : Row) (z : Z)
  (Hcell : field r "Max Results" = Some (decimal z))
  (Hsafe : (Z.abs z < 2 ^ 53)%Z) :
  parseInt (field r "Max Results") = Fin z /\
  (z <> 0%Z -> Max_Results (clean_row r) = Fin z) /\
  (z = 0%Z -> Max_Results (clean_row r) = Fin 20).
Proof.
  rewrite max_results_cases, Hcell, (parseInt_decimal z Hsafe).
  split; [reflexivity|split].
  - intros Hz; apply Z.eqb_neq in Hz; now rewrite Hz.
  - now intros ->.
Qed.

Lemma decimal_max_results_round_trip_witness :
  Max_Results (clean_row (row3 "Globex" "FR" "-75")) = Fin (-75).
Proof.
  apply (proj1 (proj2 (decimal_max_results_round_trip
                         (row3 "Globex" "FR" "-75") (-75)%Z
                         eq_refl ltac:(reflexivity)))).
  discriminate.
Defined.

(* ================================================================== *)
(** ** What trimming keeps, what is ever sent, and the two pages *)
(* ================================================================== *)

Lemma trimStart_split (s : jsstring) :
  exists pre, s = pre ++ trimStart s /\ forallb is_white_space pre = true.
Proof.
  induction s as [|c s (pre & Hs & Hpre)]; simpl; [now exists []|].
  destruct (is_white_space c) eqn:E.
  - exists (c :: pre); simpl; rewrite E, Hpre; split; [now f_equal|reflexivity].
  - now exists [].
Qed.

Lemma trim_split (s : jsstring) :
  exists pre post,
    s = pre ++ trim s ++ post /\
    forallb is_white_space pre = true /\ forallb is_white_space post = true.
Proof.
  unfold trim, trimEnd.
  destruct (trimStart_split s) as (pre & Hs & Hpre).
  destruct (trimStart_split (rev (trimStart s))) as (post & Ht & Hpost).
  exists pre, (rev post); split; [|split; [exact Hpre|now rewrite forallb_rev]].
  rewrite Hs at 1; f_equal.
  rewrite <- rev_app_distr, <- Ht. now rewrite rev_involutive.
Qed.

(** Trimming removes white space around a cell and nothing else: the
    raw "Company Name" and "Region" of a kept row are the record's values
    with only white space before and after them. *)
Theorem trimming_keeps_the_inside (r : Row) (c g : jsstring)
  (Hc : field r "Company Name" = Some c)
  (Hg : field r "Region" = Some g) :
  (exists pre post,
     c = pre ++ Company_Name (clean_row r) ++ post /\
     forallb is_white_space pre = true /\
     forallb is_white_space post = true) /\
  (exists pre post,
     g = pre ++ Region (clean_row r) ++ post /\
     forallb is_white_space pre = true /\
     forallb is_white_space post = true).
Proof.
  unfold clean_row; simpl; rewrite Hc, Hg; simpl.
  split; apply trim_split.
Qed.

Lemma trimming_keeps_the_inside_witness :
  exists pre post,
    lit "  Acme Corp " = pre ++ lit "Acme Corp" ++ post /\
    forallb is_white_space pre = true /\
    forallb is_white_space post = true.
Proof.
  exact (proj1 (trimming_keeps_the_inside (row "  Acme Corp " "US")
                  (lit "  Acme Corp ") (lit "US") eq_refl eq_refl)).
Defined.

Lemma sent_by_well_formed (w : World) (f : File) :
  Forall well_formed_request (sent_by w f).
Proof.
  unfold sent_by. destruct (file_text w f) as [csv|e]; [|constructor].
  destruct (cleanedCompanies (Papa_parse_data w csv)) as [|u us] eqn:E;
    constructor; [|constructor].
  unfold well_formed_request; cbn.
  do 3 (split; [reflexivity|]). split; [discriminate|].
  intros u' Hin. rewrite <- E in Hin.
  apply cleanedCompanies_In in Hin as (r & _ & Hv & ->).
  assert (Hclean : forall v, clean_ends (trim_field v)).
  { intros [s|]; simpl; [apply clean_ends_trim|now split]. }
  split; [|split; [apply Hclean|split; [apply Hclean|now exists r]]].
  rewrite max_results_cases.
  destruct (parseInt _) as [| |n]; try reflexivity.
  destruct (n =? 0)%Z eqn:En; simpl; [reflexivity|now rewrite En].
Qed.

(** Over the whole life of the grouped page, handlers running one at a
    time, every request it has sent
    is a POST of JSON to the webhook with a non-empty body, and every
    record in a body comes from a row that passed the filter, has no
    white space around its company name and region, and has a "Max
    Results" that is neither NaN nor zero: the page never sends an empty
    batch and never calls another address. *)
Theorem every_request_is_well_formed (m : Grouped.Machine)
  (Hreach : grouped_reachable m) :
  Forall well_formed_request (Grouped.requests m).
Proof.
  induction Hreach as [input|m value selected _ IH|m w _ IH].
  - constructor.
  - destruct selected as [f|]; [|exact IH].
    run_change. destruct (endsWith (file_name f) (lit ".csv")); exact IH.
  - destruct (Grouped.file (Grouped.ui m)) as [f|] eqn:Hfile.
    + rewrite (grouped_requests_after w f m Hfile).
      apply Forall_app; split; [exact IH|apply sent_by_well_formed].
    + now rewrite grouped_no_file.
Qed.

Lemma every_request_is_well_formed_witness :
  Forall well_formed_request
    (Grouped.requests
       (snd (Grouped.handleUpload
               (world [row "Acme" "US"] (answer_of 500 scenario_C_body))
               (snd (Grouped.handleFileChange (Some csv_file)
                       (grouped_with_input (grouped_initial (Some []))
                          (Some (lit "companies.csv")))))))).
Proof.
  exact (every_request_is_well_formed _
           (reach_submit _
              (world [row "Acme" "US"] (answer_of 500 scenario_C_body))
              (reach_change _ (Some (lit "companies.csv")) (Some csv_file)
                 (reach_initial (Some []))))).
Defined.

(** The two pages run the same pipeline: for the same file in the same
    world, unless the response names a company like a property of
    [Object.prototype], they end with the same results, the same kind of
    message, the same statistics and the same flags. *)
Theorem pages_agree
  (w : World) (f : File) (m : Grouped.Machine) (fm : Flat.Machine)
  (Hfile : Grouped.file (Grouped.ui m) = Some f)
  (Hflat : Flat.file (Flat.ui fm) = Some f)
  (Hnames : forall result profs,
      answered_with w f result profs ->
      Forall (fun p => Obj.inherited (Grouped.companyKey p) = false) profs) :
  Grouped.results (Grouped.ui (grouped_after w m))
    = Flat.results (Flat.ui (flat_after w fm)) /\
  option_map type (Grouped.message (Grouped.ui (grouped_after w m)))
    = option_map type (Flat.message (Flat.ui (flat_after w fm))) /\
  same_stats (Grouped.processingStats (Grouped.ui (grouped_after w m)))
    (Flat.processingStats (Flat.ui (flat_after w fm))) /\
  Grouped.isLoading (Grouped.ui (grouped_after w m))
    = Flat.isLoading (Flat.ui (flat_after w fm)) /\
  Grouped.file (Grouped.ui (grouped_after w m))
    = Flat.file (Flat.ui (flat_after w fm)).
Proof.
  unfold grouped_after, flat_after, answered_with in *.
  open_grouped m Hfile. open_flat fm Hflat.
  destruct (file_text w f) as [csv|e] eqn:Ht; cbn; [|now repeat split].
  destruct (List.length _ =? 0); cbn; [now repeat split|].
  destruct (fetch_answer w _) as [response|e] eqn:Hf; cbn;
    [|now repeat split].
  destruct (Http.ok response) eqn:Hok; cbn; [|now repeat split].
  destruct (Http.json response) as [[|result]|e] eqn:Hj; cbn;
    [now repeat split| |now repeat split].
  destruct (is_success result) eqn:Hs; cbn; [|now repeat split].
  destruct (Resp.profiles result) as [profs|] eqn:Hp; cbn;
    [|now repeat split].
  rewrite (grouping_creation_order profs); cbn; [now repeat split|].
  apply (Hnames result). exists csv, response. repeat split; try assumption.
  now apply is_success_true.
Qed.

Lemma pages_agree_witness :
  Grouped.results (Grouped.ui
    (grouped_after (world [row "Acme" "US"] (answer_of 200 counted_body))
       ready))
  = Flat.results (Flat.ui
      (flat_after (world [row "Acme" "US"] (answer_of 200 counted_body))
         flat_ready)).
Proof.
  assert (Hnames : forall result profs,
             answered_with
               (world [row "Acme" "US"] (answer_of 200 counted_body))
               csv_file result profs ->
             Forall (fun p => Obj.inherited (Grouped.companyKey p) = false)
               profs).
  { intros result profs (csv & response & _ & Hf & _ & Hj & _ & Hp).
    change (answer_of 200 counted_body = Resolved response) in Hf.
    injection Hf as <-.
    change (Resolved (Http.BodyObject counted_body)
            = Resolved (Http.BodyObject result)) in Hj.
    injection Hj as <-.
    change (Some [profile_of (Some (lit "Acme"))] = Some profs) in Hp.
    injection Hp as <-.
    constructor; [reflexivity|constructor]. }
  exact (proj1 (pages_agree
                  (world [row "Acme" "US"] (answer_of 200 counted_body))
                  csv_file ready flat_ready eq_refl eq_refl Hnames)).
Defined.

Lemma flat_inv_upload (w : World) (fm : Flat.Machine) :
  flat_inv fm -> flat_inv (snd (Flat.handleUpload w fm)).
Proof.
  intros (Hl & Hs & Hr).
  destruct (Flat.file (Flat.ui fm)) as [f|] eqn:Hflat;
    [|rewrite flat_no_file; [now repeat split|assumption]].
  unfold flat_inv. split; [|split].
  - now destruct (flat_always_ends w f fm Hflat) as (_ & H & _).
  - clear Hl Hs Hr. open_flat fm Hflat.
    destruct (file_text w f) as [csv|e]; cbn; [|intros H; now elim H].
    destruct (List.length _ =? 0); cbn; [intros H; now elim H|].
    destruct (fetch_answer w _) as [response|e]; cbn;
      [|intros H; now elim H].
    destruct (Http.ok response); cbn; [|intros H; now elim H].
    destruct (Http.json response) as [[|result]|e]; cbn;
      [intros H; now elim H| |intros H; now elim H].
    destruct (is_success result); cbn; [|intros H; now elim H].
    destruct (Resp.profiles result) as [profs|]; cbn;
      [|intros H; now elim H].
    intros _; discriminate.
  - rewrite (flat_requests_after w f fm Hflat).
    apply Forall_app; split; [exact Hr|apply sent_by_well_formed].
Qed.

Lemma flat_inv_change (fm : Flat.Machine) (value : option jsstring)
  (selected : option File) :
  flat_inv fm ->
  flat_inv (snd (Flat.handleFileChange selected (flat_with_input fm value))).
Proof.
  intros (Hl & Hs & Hr). destruct selected as [f|]; [|now repeat split].
  unfold flat_inv; run_change.
  destruct (endsWith (file_name f) (lit ".csv")); cbn; now repeat split.
Qed.

(** Between two events, each handler having run to its end, the flat
    page is at rest and consistent: it is not loading, results never come without the statistics, the results
    table with the download button is rendered exactly when a click on
    the button downloads a file, and every request it has sent is a
    well-formed POST of at least one cleaned row to the webhook. *)
Theorem flat_page_is_consistent (fm : Flat.Machine)
  (Hreach : flat_reachable fm) :
  Flat.isLoading (Flat.ui fm) = false /\
  (Flat.results (Flat.ui fm) <> [] ->
   Flat.processingStats (Flat.ui fm) <> None) /\
  (forall x, Flat.results_shown (Flat.ui fm) = true <->
             Flat.downloadResults x (Flat.ui fm) <> None) /\
  Forall well_formed_request (Flat.requests fm).
Proof.
  assert (Hinv : flat_inv fm).
  { induction Hreach as [input|fm value selected _ IH|fm w _ IH].
    - split; [reflexivity|split; [intros H; now elim H|constructor]].
    - now apply flat_inv_change.
    - now apply flat_inv_upload. }
  destruct Hinv as (Hl & Hs & Hr).
  split; [exact Hl|split; [exact Hs|split; [|exact Hr]]].
  intros x; unfold Flat.results_shown, Flat.downloadResults.
  destruct (Flat.results (Flat.ui fm)); simpl; split;
    congruence || discriminate.
Qed.

Lemma flat_page_is_consistent_witness :
  Flat.isLoading (Flat.ui
    (snd (Flat.handleUpload
            (world [row "Acme" "US"] (answer_of 200 counted_body))
            (snd (Flat.handleFileChange (Some csv_file)
                    (flat_with_input (flat_initial (Some []))
                       (Some (lit "companies.csv")))))))) = false.
Proof.
  exact (proj1 (flat_page_is_consistent _
                  (flat_reach_submit _
                     (world [row "Acme" "US"] (answer_of 200 counted_body))
                     (flat_reach_change _ (Some (lit "companies.csv"))
                        (Some csv_file) (flat_reach_initial (Some [])))))).
Defined.

